(** * DB_fill: the fragment annotation pipeline of [src/DB_fill/main.py]

    A shallow embedding of [main.py] (with the [SQLConnection.query] wrapper
    of [db_connect.py]) and the properties of the pipeline that follow from
    the code: title parsing, lineage resolution against the taxonomy table,
    saving of BLAST results and the dispatch of worker threads. *)

From Stdlib Require Import ZArith QArith String Ascii List Lia.
From stdpp Require Import base option list gmap strings.

Open Scope string_scope.
Open Scope list_scope.
Open Scope Z_scope.

(** ** Python values and exceptions *)

(** The exceptions that the modelled code paths raise or let through. *)
Inductive exn : Type :=
  | KeyError          (* dict lookup of a missing key *)
  | IndexError        (* sequence index out of range *)
  | ValueError        (* tuple unpacking of the wrong number of values *)
  | IntegrityError    (* mysql.connector: duplicate entry for a unique key *)
  | ProgrammingError  (* mysql.connector: parameters do not fit the statement *)
  | OtherError (name : string).

Global Instance exn_eq_dec : EqDecision exn.
Proof. solve_decision. Defined.

(** The outcome of a Python expression: a value, or a raised exception. *)
Inductive result (A : Type) : Type :=
  | Ok (a : A)
  | Raise (e : exn).
Arguments Ok {A} a.
Arguments Raise {A} e.

(** [l[i]] for a non-negative index. *)
Definition py_index {A} (l : list A) (i : nat) : result A :=
  match l !! i with
  | Some x => Ok x
  | None => Raise IndexError
  end.

(** [l[-1]]. *)
Definition py_last {A} (l : list A) : result A :=
  match last l with
  | Some x => Ok x
  | None => Raise IndexError
  end.

(** ** [title_parse] *)

Module Title.

(** [str.isspace] on one character, for code points below 256. *)
Definition is_space (c : ascii) : bool :=
  let n := nat_of_ascii c in
  ((9 <=? n)%nat && (n <=? 13)%nat) || ((28 <=? n)%nat && (n <=? 32)%nat)
  || (n =? 133)%nat || (n =? 160)%nat.

Fixpoint lstrip (s : string) : string :=
  match s with
  | EmptyString => EmptyString
  | String c s' => if is_space c then lstrip s' else s
  end.

Fixpoint rstrip (s : string) : string :=
  match s with
  | EmptyString => EmptyString
  | String c s' =>
      match rstrip s' with
      | EmptyString => if is_space c then EmptyString else String c EmptyString
      | r => String c r
      end
  end.

(** [s.strip()] *)
Definition strip (s : string) : string := rstrip (lstrip s).

(** The text before and after the first occurrence of [sep], if there is
    one. *)
Fixpoint partition (sep : ascii) (s : string) : option (string * string) :=
  match s with
  | EmptyString => None
  | String c s' =>
      if Ascii.eqb c sep then Some (EmptyString, s')
      else match partition sep s' with
           | Some (before, after) => Some (String c before, after)
           | None => None
           end
  end.

(** [s.split(sep, 1)]: at most one split, so one or two pieces. *)
Definition split1 (sep : ascii) (s : string) : list string :=
  match partition sep s with
  | Some (before, after) => [before; after]
  | None => [s]
  end.

(** [a, b = pieces]: unpacking into exactly two names. *)
Definition unpack2 {A} (pieces : list A) : result (A * A) :=
  match pieces with
  | [a; b] => Ok (a, b)
  | _ => Raise ValueError
  end.

(** The [for pos, char in enumerate(start_organism_name)] loop: the position
    at which [nested_count] reaches -1 (where the loop breaks), or [None]
    when the loop runs to the end of the string. *)
Fixpoint scan (chars : string) (pos : nat) (nested_count : Z) : option nat :=
  match chars with
  | EmptyString => None
  | String char rest =>
      let nested_count :=
        if Ascii.eqb char "["%char then nested_count + 1
        else if Ascii.eqb char "]"%char then nested_count - 1
        else nested_count in
      if (nested_count =? -1)%Z then Some pos
      else scan rest (S pos) nested_count
  end.

(** [title_parse(title)]: the protein name and the organism name ([None]
    when the loop never breaks). *)
Definition title_parse (title : string) : result (string * option string) :=
  match unpack2 (split1 "["%char title) with
  | Raise e => Raise e
  | Ok (protein_name, start_organism_name) =>
      let organism_name :=
        match scan start_organism_name 0 0 with
        | Some pos => Some (substring 0 pos start_organism_name)
        | None => None
        end in
      Ok (strip protein_name, organism_name)
  end.

(** A title holds the character [c]. *)
Fixpoint contains (c : ascii) (s : string) : bool :=
  match s with
  | EmptyString => false
  | String c' s' => Ascii.eqb c' c || contains c s'
  end.

End Title.

(** ** The record store *)

(** Modelled from the spec: the table declarations are not part of the
    sources, which only hold the statements sent to the server.  Section 6
    of the specification gives the four tables and their unique keys:
    [taxonomy(tax_id unique, name, parent_tax_id)],
    [fragment(header unique, seq, quality)],
    [protein(accession unique, tax_id, sequence, name)] and
    [blast_result(fragment_id, accession_number, score, expect, identities,
    positives, gaps)].  Rows are kept in insertion order. *)
Record taxon_row : Type := {
  tax_id : Z;
  tax_name : string;
  parent_tax_id : option Z }.

Record fragment_row : Type := {
  fragment_id : Z;
  header : string;
  fragment_seq : string;
  quality : string }.

Record protein_row : Type := {
  accession : string;
  protein_tax_id : option Z;
  protein_sequence : option string;
  protein_name : string }.

Record blast_row : Type := {
  blast_fragment_id : option Z;
  accession_number : string;
  blast_score : Q;
  blast_expect : Q;
  blast_identities : Z;
  blast_positives : Z;
  blast_gaps : Z }.

Record store : Type := {
  taxonomy : list taxon_row;
  fragment : list fragment_row;
  protein : list protein_row;
  blast_result : list blast_row }.

(** The statements that [main.py] passes to [SQLConnection.query], with
    their parameters. *)
Inductive statement : Type :=
  (* 'select tax_id from taxonomy' *)
  | select_tax_id
  (* 'select header from fragment' *)
  | select_header
  (* 'insert into taxonomy values(%s, %s, %s)' *)
  | insert_taxonomy (id : Z) (name : string) (parent : option Z)
  (* 'insert ignore into fragment(header, seq, quality) values(%s, %s, %s)' *)
  | insert_ignore_fragment (fragment_data : list string)
  (* 'insert ignore into protein values(%s, %s, %s, %s)' *)
  | insert_ignore_protein (acc : string) (id : option Z)
      (sequence : option string) (name : string)
  (* 'insert into blast_result(fragment_id, accession_number, score, expect,
      identities, positives, gaps) values((select fragment_id as id from
      fragment where header = %s), %s, %s, %s, %s, %s, %s)' *)
  | insert_blast_result (hdr : string) (acc : string) (score expect : Q)
      (identities positives gaps : Z).

(** What [cursor.fetchall()] gives back; [no_rows] is the [(None,)] that
    [query] returns for a statement without a result set. *)
Inductive rows : Type :=
  | tax_id_rows (ids : list Z)
  | header_rows (headers : list string)
  | no_rows.

Definition tax_ids (s : store) : list Z := tax_id <$> taxonomy s.
Definition headers (s : store) : list string := header <$> fragment s.
Definition accessions (s : store) : list string := accession <$> protein s.

(** The value of [(select fragment_id as id from fragment where header = h)]:
    the id of the row with that header, NULL when there is none. *)
Definition fragment_id_of (s : store) (h : string) : option Z :=
  match filter (λ r, header r = h) (fragment s) with
  | r :: _ => Some (fragment_id r)
  | [] => None
  end.

(** Modelled from the spec: the unique keys are those of section 6 of the
    specification, the table declarations not being part of the sources.
    The server's answer to one statement: a plain [insert] of a key that is
    already there is refused with a duplicate-entry error; an
    [insert ignore] of such a key leaves the table as it is.  The
    [fragment_id] of a new fragment row is the next number. *)
Definition execute (q : statement) (s : store) : store * result rows :=
  match q with
  | select_tax_id => (s, Ok (tax_id_rows (tax_ids s)))
  | select_header => (s, Ok (header_rows (headers s)))
  | insert_taxonomy id name parent =>
      if decide (id ∈ tax_ids s) then (s, Raise IntegrityError)
      else ({| taxonomy := taxonomy s ++ [Build_taxon_row id name parent];
               fragment := fragment s;
               protein := protein s;
               blast_result := blast_result s |}, Ok no_rows)
  | insert_ignore_fragment fragment_data =>
      match fragment_data with
      | [hdr; sq; qual] =>
          if decide (hdr ∈ headers s) then (s, Ok no_rows)
          else ({| taxonomy := taxonomy s;
                   fragment := fragment s ++
                     [Build_fragment_row (Z.of_nat (S (length (fragment s))))
                        hdr sq qual];
                   protein := protein s;
                   blast_result := blast_result s |}, Ok no_rows)
      | _ => (s, Raise ProgrammingError)
      end
  | insert_ignore_protein acc id sequence name =>
      if decide (acc ∈ accessions s) then (s, Ok no_rows)
      else ({| taxonomy := taxonomy s;
               fragment := fragment s;
               protein := protein s ++ [Build_protein_row acc id sequence name];
               blast_result := blast_result s |}, Ok no_rows)
  | insert_blast_result hdr acc score expect identities positives gaps =>
      ({| taxonomy := taxonomy s;
          fragment := fragment s;
          protein := protein s;
          blast_result := blast_result s ++
            [Build_blast_row (fragment_id_of s hdr) acc score expect
               identities positives gaps] |}, Ok no_rows)
  end.

(** ** The world a worker acts on *)

(** Arguments of the [NCBIWWW.qblast] call. *)
Record qblast_args : Type := {
  program : string;
  database : string;
  sequence : string;
  ncbi_gi : bool;
  hitlist_size : Z;
  format_type : string;
  matrix_name : string;
  gapcosts : string;
  word_size : Z;
  entrez_query : string;
  expect : Z }.

(** Lines printed on the console (the time stamps of [processing] are left
    out). *)
Inductive message : Type :=
  | sending_blast_request (hdr : string)
  | blast_complete (hdr : string)
  | lookup_error (hdr : string) (organism_name : option string)
      (title : string).

(** What the dispatcher does, in order. *)
Inductive event : Type :=
  | thread_start (read : list string)  (* Thread(target=processing, args=[read]).start() *)
  | sleep (seconds : Q).               (* time.sleep(seconds) *)

Record world : Type := {
  db : store;                      (* the tables on the server *)
  sql_log : list statement;        (* statements passed to [query], in order *)
  stdout : list message;           (* printed lines, in order *)
  blast_log : list qblast_args;    (* requests sent to the search service *)
  events : list event }.           (* threads started and pauses taken *)

(** Python code acting on the world: it may raise, and what it did before
    raising stays done (the connection runs with autocommit on). *)
Definition M (A : Type) : Type := world → world * result A.

Global Instance M_ret : MRet M := λ A a w, (w, Ok a).

Global Instance M_bind : MBind M := λ A B f m w,
  match m w with
  | (w', Ok a) => f a w'
  | (w', Raise e) => (w', Raise e)
  end.

Definition lift {A} (r : result A) : M A := λ w, (w, r).

(** [try: body / except e: handler] *)
Definition try_except {A} (body : M A) (e : exn) (handler : M A) : M A :=
  λ w, match body w with
       | (w', Raise e') => if decide (e' = e) then handler w' else (w', Raise e')
       | r => r
       end.

(** [for x in l: body(x)] *)
Fixpoint for_each {A} (l : list A) (body : A → M unit) : M unit :=
  match l with
  | [] => mret tt
  | x :: l' => body x;; for_each l' body
  end.

(** [enumerate(l)], counting from [pos]. *)
Fixpoint enumerate_from {A} (pos : nat) (l : list A) : list (nat * A) :=
  match l with
  | [] => []
  | x :: l' => (pos, x) :: enumerate_from (S pos) l'
  end.

Definition enumerate {A} (l : list A) : list (nat * A) := enumerate_from 0 l.

(** [SQLConnection.query(query, args)] *)
Definition query (q : statement) : M rows := λ w,
  let (s, r) := execute q (db w) in
  ({| db := s; sql_log := sql_log w ++ [q]; stdout := stdout w;
      blast_log := blast_log w; events := events w |}, r).

(** [print(msg)] *)
Definition print (msg : message) : M unit := λ w,
  ({| db := db w; sql_log := sql_log w; stdout := stdout w ++ [msg];
      blast_log := blast_log w; events := events w |}, Ok tt).

Definition emit (ev : event) : M unit := λ w,
  ({| db := db w; sql_log := sql_log w; stdout := stdout w;
      blast_log := blast_log w; events := events w ++ [ev] |}, Ok tt).

(** ** External collaborators *)

(** The taxonomy source (ete3's [NCBITaxa]), as far as [main.py] uses it.
    - [get_name_translator name] stands for the dictionary returned by
      [ncbi.get_name_translator([name])], read at the key [name]: [Ok None]
      when the dictionary has no such key;
    - [get_lineage_of id] is [ncbi.get_lineage(id)];
    - [get_taxid_translator id] stands for the dictionary returned by
      [ncbi.get_taxid_translator([id])], read at the key [id]. *)
Record NCBITaxa : Type := {
  get_name_translator : option string → result (option (list Z));
  get_lineage_of : Z → result (list Z);
  get_taxid_translator : Z → result (option string) }.

(** One high-scoring pair and one alignment of a parsed BLAST record. *)
Record HSP : Type := {
  hsp_score : Q;
  hsp_expect : Q;
  hsp_identities : Z;
  hsp_gaps : Z;
  hsp_positives : Z }.

Record Alignment : Type := {
  hit_def : string;
  alignment_accession : string;
  hsps : list HSP }.

(** The search service: [qblast] answers a request with a document,
    [NCBIXML_read] parses a document into its alignments. *)
Record Blast : Type := {
  qblast : qblast_args → result string;
  NCBIXML_read : string → result (list Alignment) }.

(** The dictionary built by [extract_results]. *)
Record blast_hit : Type := {
  hit_score : Q;
  hit_expect : Q;
  hit_identities : Z;
  hit_gaps : Z;
  hit_positives : Z;
  hit_accession : string;
  hit_protein_name : string;
  hit_organism_name : option string;
  hit_title : string }.

(** [d[key]] for a dictionary read at one key. *)
Definition py_getitem {A} (entry : option A) : result A :=
  match entry with
  | Some a => Ok a
  | None => Raise KeyError
  end.

Definition result_bind {A B} (r : result A) (f : A → result B) : result B :=
  match r with
  | Ok a => f a
  | Raise e => Raise e
  end.

Section Pipeline.

Context (ncbi : NCBITaxa) (blast : Blast).

(** [get_lineage(organism_name)] *)
Definition get_lineage (organism_name : option string) : result (list Z) :=
  result_bind (get_name_translator ncbi organism_name) (λ translator,
  result_bind (py_getitem translator) (λ ids,
  result_bind (py_index ids 0) (λ tax_id,
  result_bind (get_lineage_of ncbi tax_id) (λ lineage,
  Ok (drop 1 lineage))))).

(** [extract_results(alignment)] *)
Definition extract_results (alignment : Alignment) : result blast_hit :=
  let title := hit_def alignment in
  result_bind (Title.title_parse title) (λ '(protein_name, organism_name),
  result_bind (py_index (hsps alignment) 0) (λ hsp,
  Ok {| hit_score := hsp_score hsp;
        hit_expect := hsp_expect hsp;
        hit_identities := hsp_identities hsp;
        hit_gaps := hsp_gaps hsp;
        hit_positives := hsp_positives hsp;
        hit_accession := alignment_accession alignment;
        hit_protein_name := protein_name;
        hit_organism_name := organism_name;
        hit_title := hit_def alignment |})).

(** The parent chosen by [update_taxonomy] for the taxon at position [pos]:
    [lineage[pos-1]] when [pos-1 >= 0], otherwise [None]. *)
Definition parent_of (lineage : list Z) (pos : nat) : result (option Z) :=
  let parent_pos := Z.of_nat pos - 1 in
  if 0 <=? parent_pos
  then result_bind (py_index lineage (Z.to_nat parent_pos)) (λ parent,
       Ok (Some parent))
  else Ok None.

(** [ncbi.get_taxid_translator([tax_id])[tax_id]] *)
Definition taxon_name (tax_id : Z) : result string :=
  result_bind (get_taxid_translator ncbi tax_id) py_getitem.

(** The body of the loop of [update_taxonomy], at position [pos]. *)
Definition update_taxon (current_tax : gset Z) (lineage : list Z)
    (pos : nat) (tax_id : Z) : M unit :=
  if decide (tax_id ∈ current_tax) then mret tt
  else
    parent ← lift (parent_of lineage pos);
    name ← lift (taxon_name tax_id);
    query (insert_taxonomy tax_id name parent);;
    mret tt.

(** [update_taxonomy(current_tax, lineage, connection)] *)
Definition update_taxonomy (current_tax : gset Z) (lineage : list Z) : M unit :=
  for_each (enumerate lineage) (λ '(pos, tax_id),
    update_taxon current_tax lineage pos tax_id).

(** The [for tax_id in reversed(lineage)] loop of [check_lineage], which
    leaves at the first taxon that is not in [tax_set]. *)
Fixpoint check_taxa (tax_set : gset Z) (lineage : list Z)
    (reversed : list Z) : M unit :=
  match reversed with
  | [] => mret tt
  | tax_id :: rest =>
      if decide (tax_id ∈ tax_set) then check_taxa tax_set lineage rest
      else update_taxonomy tax_set lineage
  end.

(** [{row[0] for row in present_taxa}] *)
Definition tax_id_set (present_taxa : rows) : gset Z :=
  match present_taxa with
  | tax_id_rows ids => list_to_set ids
  | _ => ∅
  end.

(** [check_lineage(organism_name, connection)] *)
Definition check_lineage (organism_name : option string) : M Z :=
  present_taxa ← query select_tax_id;
  let tax_set := tax_id_set present_taxa in
  lineage ← lift (get_lineage organism_name);
  check_taxa tax_set lineage (reverse lineage);;
  lift (py_last lineage).

(** The body of the loop of [blast_results_save] for one alignment. *)
Definition save_alignment (fragment_data : list string)
    (alignment : Alignment) : M unit :=
  blast_results ← lift (extract_results alignment);
  tax_id ← try_except
    (check_lineage (hit_organism_name blast_results);;
     lineage ← lift (get_lineage (hit_organism_name blast_results));
     leaf ← lift (py_last lineage);
     mret (Some leaf))
    KeyError
    (hdr ← lift (py_index fragment_data 0);
     print (lookup_error hdr (hit_organism_name blast_results)
              (hit_title blast_results));;
     mret None);
  query (insert_ignore_protein (hit_accession blast_results) tax_id None
           (hit_protein_name blast_results));;
  hdr ← lift (py_index fragment_data 0);
  query (insert_blast_result hdr (hit_accession blast_results)
           (hit_score blast_results) (hit_expect blast_results)
           (hit_identities blast_results) (hit_positives blast_results)
           (hit_gaps blast_results));;
  mret tt.

(** [blast_results_save(fragment_data, blast_results, connection)] *)
Definition blast_results_save (fragment_data : list string)
    (blast_results : string) : M unit :=
  parsed_blast_results ← lift (NCBIXML_read blast blast_results);
  query (insert_ignore_fragment fragment_data);;
  for_each parsed_blast_results (save_alignment fragment_data).

(** The filter of [processing] and the arguments of its [qblast] call;
    [10 ^ -5] is Python's bitwise exclusive or of two integers. *)
Definition entrez : string := "Procaryotae[Organism] OR Fungi[Organism]".

Definition qblast_request (sequence : string) : qblast_args :=
  {| program := "blastx";
     database := "nr";
     sequence := sequence;
     ncbi_gi := true;
     hitlist_size := 5;
     format_type := "XML";
     matrix_name := "BLOSUM62";
     gapcosts := "11 1";
     word_size := 6;
     entrez_query := entrez;
     expect := Z.lxor 10 (-5) |}.

(** [NCBIWWW.qblast(...)]: the request goes out, the answer comes back. *)
Definition send_qblast (args : qblast_args) : M string := λ w,
  ({| db := db w; sql_log := sql_log w; stdout := stdout w;
      blast_log := blast_log w ++ [args]; events := events w |},
   qblast blast args).

(** [processing(fragment_data)] *)
Definition processing (fragment_data : list string) : M unit :=
  hdr ← lift (py_index fragment_data 0);
  print (sending_blast_request hdr);;
  sequence ← lift (py_index fragment_data 1);
  result ← send_qblast (qblast_request sequence);
  hdr ← lift (py_index fragment_data 0);
  print (blast_complete hdr);;
  blast_results_save fragment_data result.

End Pipeline.

(** ** The dispatcher *)

(** [fragment_reader(csv_file)]: each line of the file (already split at
    [;]) gives a pair of reads. *)
Definition fragment_reader (csv_file : list (list string))
    : list (list string * list string) :=
  (λ line, (take 3 line, drop 3 line)) <$> csv_file.

(** [{row[0] for row in present_taxa}] for the headers. *)
Definition header_set (present : rows) : gset string :=
  match present with
  | header_rows hs => list_to_set hs
  | _ => ∅
  end.

(** [threading.Thread(target=processing, args=[read]).start()] followed by
    [time.sleep(0.6)]. *)
Definition launch (read : list string) : M unit :=
  emit (thread_start read);; emit (sleep (6 # 10)).

(** The body of the inner loop when duplicates are not allowed: a read
    whose header is in [fragment_set] is passed over ([continue]). *)
Definition launch_new (fragment_set : gset string) (read : list string)
    : M unit :=
  hdr ← lift (py_index read 0);
  if decide (hdr ∈ fragment_set) then mret tt
  else launch read.

(** [create_threads(allow_duplicates)], on the lines of the data set. *)
Definition create_threads (allow_duplicates : bool)
    (csv_file : list (list string)) : M unit :=
  if allow_duplicates then
    for_each (fragment_reader csv_file) (λ '(read1, read2),
      for_each [read1; read2] launch)
  else
    present_taxa ← query select_header;
    let fragment_set := header_set present_taxa in
    for_each (fragment_reader csv_file) (λ '(read1, read2),
      for_each [read1; read2] (launch_new fragment_set)).

(** ** Vocabulary of the properties *)

(** A part [f] of the world that the code [m] leaves as it found it. *)
Definition frames {A X} (f : world → X) (m : M A) : Prop :=
  ∀ w, f (m w).1 = f w.

(** [f] does not look at the tables or at the statement log. *)
Definition ignores_store {X} (f : world → X) : Prop :=
  ∀ w s log, f {| db := s; sql_log := log; stdout := stdout w;
                  blast_log := blast_log w; events := events w |} = f w.

(** [f] does not look at the console. *)
Definition ignores_stdout {X} (f : world → X) : Prop :=
  ∀ w out, f {| db := db w; sql_log := sql_log w; stdout := out;
                blast_log := blast_log w; events := events w |} = f w.

(** The world after the statement [q] was sent and left the tables alone. *)
Definition logged (q : statement) (w : world) : world :=
  {| db := db w; sql_log := sql_log w ++ [q]; stdout := stdout w;
     blast_log := blast_log w; events := events w |}.

(** The world after [insert into taxonomy] was sent and accepted. *)
Definition taxon_added (id : Z) (name : string) (parent : option Z)
    (w : world) : world :=
  {| db := {| taxonomy := taxonomy (db w) ++ [Build_taxon_row id name parent];
              fragment := fragment (db w);
              protein := protein (db w);
              blast_result := blast_result (db w) |};
     sql_log := sql_log w ++ [insert_taxonomy id name parent];
     stdout := stdout w; blast_log := blast_log w; events := events w |}.

(** The key of a taxonomy insert. *)
Definition inserted_id (q : statement) : option Z :=
  match q with
  | insert_taxonomy id _ _ => Some id
  | _ => None
  end.

(** The runs of the loop of [update_taxonomy] from position [pos], over the
    taxa [rest] that are still to be visited: a taxon of the snapshot is
    passed over; for any other taxon the parent and the name are looked up
    and the insert is sent, which the server accepts or refuses. *)
Inductive loop_run (ncbi : NCBITaxa) (current_tax : gset Z) (lineage : list Z)
    : nat → list Z → world → world → result unit → Prop :=
  | run_done pos w :
      loop_run ncbi current_tax lineage pos [] w w (Ok tt)
  | run_present pos tax_id rest w w' r :
      tax_id ∈ current_tax →
      loop_run ncbi current_tax lineage (S pos) rest w w' r →
      loop_run ncbi current_tax lineage pos (tax_id :: rest) w w' r
  | run_no_parent pos tax_id rest w e :
      tax_id ∉ current_tax →
      parent_of lineage pos = Raise e →
      loop_run ncbi current_tax lineage pos (tax_id :: rest) w w (Raise e)
  | run_no_name pos tax_id rest w parent e :
      tax_id ∉ current_tax →
      parent_of lineage pos = Ok parent →
      taxon_name ncbi tax_id = Raise e →
      loop_run ncbi current_tax lineage pos (tax_id :: rest) w w (Raise e)
  | run_refused pos tax_id rest w parent name :
      tax_id ∉ current_tax →
      parent_of lineage pos = Ok parent →
      taxon_name ncbi tax_id = Ok name →
      tax_id ∈ tax_ids (db w) →
      loop_run ncbi current_tax lineage pos (tax_id :: rest) w
        (logged (insert_taxonomy tax_id name parent) w) (Raise IntegrityError)
  | run_inserted pos tax_id rest w parent name w' r :
      tax_id ∉ current_tax →
      parent_of lineage pos = Ok parent →
      taxon_name ncbi tax_id = Ok name →
      tax_id ∉ tax_ids (db w) →
      loop_run ncbi current_tax lineage (S pos) rest
        (taxon_added tax_id name parent w) w' r →
      loop_run ncbi current_tax lineage pos (tax_id :: rest) w w' r.

(** The parent of a stored taxon is null or one of the [known] taxa. *)
Definition parent_known (known : list Z) (row : taxon_row) : Prop :=
  match parent_tax_id row with
  | None => True
  | Some parent => parent ∈ known
  end.

(** The stored taxon sits at some position of the lineage, and its parent
    is the element before it, or null at the first position. *)
Definition chain_parent (lineage : list Z) (row : taxon_row) : Prop :=
  ∃ pos, lineage !! pos = Some (tax_id row)
         ∧ parent_tax_id row = match pos with
                               | O => None
                               | S before => lineage !! before
                               end.

(** The threads started, in order. *)
Definition started (evs : list event) : list (list string) :=
  omap (λ ev, match ev with thread_start read => Some read | _ => None end) evs.

(** The reads of the data set, in the order of the file. *)
Definition reads_of (csv_file : list (list string)) : list (list string) :=
  csv_file ≫= λ line, [take 3 line; drop 3 line].

(** The read's header is not in the set of known headers. *)
Definition is_new (fragment_set : list string) (read : list string) : Prop :=
  ∃ hdr, head read = Some hdr ∧ hdr ∉ fragment_set.

Global Instance is_new_dec fragment_set read : Decision (is_new fragment_set read).
Proof.
  unfold is_new. destruct read as [|hdr ?]; simpl.
  - right. intros (? & ? & ?). discriminate.
  - destruct (decide (hdr ∈ fragment_set)).
    + right. intros (? & [= <-] & ?). done.
    + left. eauto.
Defined.

(** The world after the dispatcher did [evs]. *)
Definition add_events (evs : list event) (w : world) : world :=
  {| db := db w; sql_log := sql_log w; stdout := stdout w;
     blast_log := blast_log w; events := events w ++ evs |}.

(** What the dispatcher does to launch the workers of [reads]. *)
Definition launch_events (reads : list (list string)) : list event :=
  reads ≫= λ read, [thread_start read; sleep (6 # 10)].

(** ** Sample data *)

(** A taxonomy source that knows Escherichia coli (taxon 562, below
    cellular organisms and Bacteria) and the root of the taxonomy (taxon 1,
    whose lineage is the root alone). *)
Definition sample_ncbi : NCBITaxa := {|
  get_name_translator := λ name,
    match name with
    | Some "Escherichia coli" => Ok (Some [562])
    | Some "root" => Ok (Some [1])
    | _ => Ok None
    end;
  get_lineage_of := λ id,
    if id =? 562 then Ok [1; 131567; 2; 562]
    else if id =? 1 then Ok [1]
    else Raise ValueError;
  get_taxid_translator := λ id,
    if id =? 562 then Ok (Some "Escherichia coli")
    else if id =? 2 then Ok (Some "Bacteria")
    else if id =? 131567 then Ok (Some "cellular organisms")
    else if id =? 1 then Ok (Some "root")
    else Ok None |}.

Definition sample_hsp : HSP :=
  {| hsp_score := 250; hsp_expect := 1 # 1000000; hsp_identities := 48;
     hsp_gaps := 0; hsp_positives := 60 |}.

Definition coli_hit : Alignment :=
  {| hit_def := "elongation factor Tu [Escherichia coli]";
     alignment_accession := "WP_000031783";
     hsps := [sample_hsp] |}.

Definition root_hit : Alignment :=
  {| hit_def := "hypothetical protein [root]";
     alignment_accession := "XP_000000001";
     hsps := [sample_hsp] |}.

Definition unknown_hit : Alignment :=
  {| hit_def := "hypothetical protein [Planet nine]";
     alignment_accession := "XP_000000002";
     hsps := [sample_hsp] |}.

(** A search service that answers by the name of the document. *)
Definition sample_blast : Blast := {|
  qblast := λ _, Ok "coli";
  NCBIXML_read := λ doc,
    if String.eqb doc "coli" then Ok [coli_hit]
    else if String.eqb doc "root" then Ok [root_hit]
    else if String.eqb doc "root, coli" then Ok [root_hit; coli_hit]
    else if String.eqb doc "unknown, coli" then Ok [unknown_hit; coli_hit]
    else Raise ValueError |}.

Definition sample_read : list string := ["read_1"; "ACGTACGT"; "IIIIIIII"].

Definition empty_store : store :=
  {| taxonomy := []; fragment := []; protein := []; blast_result := [] |}.

Definition empty_world : world :=
  {| db := empty_store; sql_log := []; stdout := []; blast_log := [];
     events := [] |}.

(** A store in which another worker has already stored Bacteria. *)
Definition bacteria_world : world :=
  {| db := {| taxonomy := [Build_taxon_row 2 "Bacteria" None];
              fragment := []; protein := []; blast_result := [] |};
     sql_log := []; stdout := []; blast_log := []; events := [] |}.

(** A store that holds the fragment [read_1]. *)
Definition read_1_world : world :=
  {| db := {| taxonomy := [];
              fragment := [Build_fragment_row 1 "read_1" "ACGTACGT" "IIIIIIII"];
              protein := []; blast_result := [] |};
     sql_log := []; stdout := []; blast_log := []; events := [] |}.

Definition sample_csv : list (list string) :=
  [["read_1"; "ACGTACGT"; "IIIIIIII"; "read_2"; "TTGACCAA"; "IIIIHHHH"];
   ["read_3"; "GGGTTTAA"; "HHHHIIII"; "read_1"; "ACGTACGT"; "IIIIIIII"]].

(** ** Further vocabulary *)

(** The bracket depth reached after [chars], read from the depth [depth]
    as the loop of [title_parse] counts it; [None] once the count has been
    at -1 (an unmatched ']'). *)
Fixpoint depth_after (chars : string) (depth : Z) : option Z :=
  match chars with
  | EmptyString => Some depth
  | String char rest =>
      let depth :=
        if Ascii.eqb char "["%char then depth + 1
        else if Ascii.eqb char "]"%char then depth - 1
        else depth in
      if depth =? -1 then None else depth_after rest depth
  end.

Definition starts_with_space (s : string) : bool :=
  match s with
  | String c _ => Title.is_space c
  | EmptyString => false
  end.

Fixpoint ends_with_space (s : string) : bool :=
  match s with
  | EmptyString => false
  | String c EmptyString => Title.is_space c
  | String _ rest => ends_with_space rest
  end.

(** The [try] block of [blast_results_save] with its handler: the taxon of
    the hit, [None] after a KeyError. *)
Definition resolve_taxon (ncbi : NCBITaxa) (fragment_data : list string)
    (blast_results : blast_hit) : M (option Z) :=
  try_except
    (check_lineage ncbi (hit_organism_name blast_results);;
     lineage ← lift (get_lineage ncbi (hit_organism_name blast_results));
     leaf ← lift (py_last lineage);
     mret (Some leaf))
    KeyError
    (hdr ← lift (py_index fragment_data 0);
     print (lookup_error hdr (hit_organism_name blast_results)
              (hit_title blast_results));;
     mret None).

(** The protein and alignment inserts that [blast_results_save] sends for
    one hit. *)
Definition protein_insert (blast_results : blast_hit) (tax : option Z)
    : statement :=
  insert_ignore_protein (hit_accession blast_results) tax None
    (hit_protein_name blast_results).

Definition alignment_insert (hdr : string) (blast_results : blast_hit)
    : statement :=
  insert_blast_result hdr (hit_accession blast_results)
    (hit_score blast_results) (hit_expect blast_results)
    (hit_identities blast_results) (hit_positives blast_results)
    (hit_gaps blast_results).

(** Every stored taxon has a null parent or a stored parent. *)
Definition parents_present (s : store) : Prop :=
  Forall (parent_known (tax_ids s)) (taxonomy s).

(** Every stored protein has a null taxon or a stored taxon. *)
Definition proteins_resolved (s : store) : Prop :=
  Forall (λ row, ∀ id, protein_tax_id row = Some id → id ∈ tax_ids s)
    (protein s).

(** Every stored alignment refers to a stored fragment. *)
Definition alignments_resolved (s : store) : Prop :=
  Forall (λ row, ∃ id, blast_fragment_id row = Some id
                       ∧ id ∈ fragment_id <$> fragment s)
    (blast_result s).


(** A search service that cannot be reached. *)
Definition unreachable_blast : Blast := {|
  qblast := λ _, Raise (OtherError "URLError");
  NCBIXML_read := λ _, Ok [] |}.

(** * Properties *)

(** ** Running monadic code *)

Lemma run_bind {A B} (m : M A) (f : A → M B) (w : world) :
  (m ≫= f) w = match m w with
               | (w', Ok a) => f a w'
               | (w', Raise e) => (w', Raise e)
               end.
Proof. reflexivity. Qed.

Lemma run_ret {A} (a : A) (w : world) : mret (M := M) a w = (w, Ok a).
Proof. reflexivity. Qed.

Lemma run_lift {A} (r : result A) (w : world) : lift r w = (w, r).
Proof. reflexivity. Qed.

Lemma for_each_cons {A} (x : A) (l : list A) (body : A → M unit) (w : world) :
  for_each (x :: l) body w
  = match body x w with
    | (w', Ok _) => for_each l body w'
    | (w', Raise e) => (w', Raise e)
    end.
Proof. reflexivity. Qed.

Lemma frames_ret {A X} (f : world → X) (a : A) : frames f (mret (M := M) a).
Proof. intros w. reflexivity. Qed.

Lemma frames_lift {A X} (f : world → X) (r : result A) : frames f (lift r).
Proof. intros w. reflexivity. Qed.

Lemma frames_bind {A B X} (f : world → X) (m : M A) (k : A → M B) :
  frames f m → (∀ a, frames f (k a)) → frames f (m ≫= k).
Proof.
  intros Hm Hk w. rewrite run_bind. specialize (Hm w).
  destruct (m w) as [w' [a|e]]; simpl in *; [|done].
  by rewrite Hk.
Qed.

Lemma frames_try_except {A X} (f : world → X) (body handler : M A) (e : exn) :
  frames f body → frames f handler → frames f (try_except body e handler).
Proof.
  intros Hb Hh w. unfold try_except. specialize (Hb w).
  destruct (body w) as [w' [a|e']]; simpl in *; [done|].
  case_decide; [|done]. by rewrite Hh.
Qed.

Lemma frames_for_each {A X} (f : world → X) (l : list A) (body : A → M unit) :
  (∀ x, frames f (body x)) → frames f (for_each l body).
Proof.
  intros Hbody. induction l as [|x l IH]; [apply frames_ret|].
  apply frames_bind; [apply Hbody | intros _; apply IH].
Qed.

Lemma frames_print {X} (f : world → X) (msg : message) :
  (∀ w out, f {| db := db w; sql_log := sql_log w; stdout := out;
                 blast_log := blast_log w; events := events w |} = f w) →
  frames f (print msg).
Proof. intros Hf w. apply Hf. Qed.

Lemma frames_query {X} (f : world → X) (q : statement) :
  (∀ w s log, f {| db := s; sql_log := log; stdout := stdout w;
                   blast_log := blast_log w; events := events w |} = f w) →
  frames f (query q).
Proof.
  intros Hf w. unfold query. destruct (execute q (db w)). apply Hf.
Qed.

Create HintDb frames discriminated.
#[export] Hint Resolve frames_ret frames_lift frames_bind frames_try_except
  frames_for_each : frames.

(** ** Title parsing *)

Lemma partition_without (sep : ascii) (s : string) :
  Title.contains sep s = false → Title.partition sep s = None.
Proof.
  induction s as [|c s IH]; simpl; [done|].
  intros [Hc Hs]%orb_false_iff. rewrite Hc, (IH Hs). done.
Qed.

Lemma split1_without (sep : ascii) (s : string) :
  Title.contains sep s = false → Title.split1 sep s = [s].
Proof. intros H. unfold Title.split1. by rewrite partition_without. Qed.

Example title_parse_plain :
  Title.title_parse "Protein X [Genus species]"
  = Ok ("Protein X", Some "Genus species").
Proof. reflexivity. Qed.

(** A bracket that is never closed leaves the organism name at [None]. *)
Example title_parse_unclosed :
  Title.title_parse "Protein X [Genus species"
  = Ok ("Protein X", None).
Proof. reflexivity. Qed.

(** C2: a hit title without any '[' makes [title_parse] fail; the split
    gives a single piece, and unpacking it into two names raises
    ValueError.  No protein name and no null organism name is returned. *)
Theorem title_parse_without_bracket (title : string) :
  Title.contains "["%char title = false →
  Title.title_parse title = Raise ValueError.
Proof.
  intros H. unfold Title.title_parse. by rewrite split1_without.
Qed.

Lemma title_parse_without_bracket_witness :
  Title.contains "["%char "hypothetical protein" = false
  ∧ Title.title_parse "hypothetical protein" = Raise ValueError.
Proof.
  split; [reflexivity|].
  apply (title_parse_without_bracket "hypothetical protein"). reflexivity.
Defined.

(** C3, as stated: the title with a nested bracket pair before the species
    tag does not parse to the organism name "Genus species". *)
Lemma title_parse_nested_not_last_tag :
  ¬ ∃ protein_name,
      Title.title_parse "Protein [with [nested] note] [Genus species]"
      = Ok (protein_name, Some "Genus species").
Proof. intros [protein_name H]. vm_compute in H. discriminate H. Qed.

(** C3, amended: the title is split at its first '[', and the scan of the
    remainder passes the first ']' (position 12, which closes the nested
    '[') and stops at the first unmatched ']' (position 18); the organism
    name is the text before it, "with [nested] note", and the protein name
    is "Protein". *)
Theorem title_parse_nested :
  Title.split1 "["%char "Protein [with [nested] note] [Genus species]"
  = ["Protein "; "with [nested] note] [Genus species]"]
  ∧ String.index 0 "]" "with [nested] note] [Genus species]" = Some 12%nat
  ∧ Title.scan "with [nested] note] [Genus species]" 0 0 = Some 18%nat
  ∧ Title.title_parse "Protein [with [nested] note] [Genus species]"
    = Ok ("Protein", Some "with [nested] note").
Proof. repeat split; reflexivity. Qed.

(** ** What each function leaves untouched *)

Section Frames.

Context (ncbi : NCBITaxa) (blast : Blast).
Context {X : Type} (f : world → X).

Lemma frames_query_store (q : statement) : ignores_store f → frames f (query q).
Proof. intros Hf. by apply frames_query. Qed.

Lemma frames_update_taxon current_tax lineage pos tax_id :
  (∀ id name parent, frames f (query (insert_taxonomy id name parent))) →
  frames f (update_taxon ncbi current_tax lineage pos tax_id).
Proof.
  intros Hq. unfold update_taxon. case_decide; auto 10 with frames.
Qed.

Lemma frames_update_taxonomy current_tax lineage :
  (∀ id name parent, frames f (query (insert_taxonomy id name parent))) →
  frames f (update_taxonomy ncbi current_tax lineage).
Proof.
  intros Hq. apply frames_for_each. intros [pos tax_id].
  by apply frames_update_taxon.
Qed.

Lemma frames_check_taxa tax_set lineage reversed :
  (∀ id name parent, frames f (query (insert_taxonomy id name parent))) →
  frames f (check_taxa ncbi tax_set lineage reversed).
Proof.
  intros Hq. induction reversed as [|tax_id rest IH]; simpl.
  - apply frames_ret.
  - case_decide; [done|]. by apply frames_update_taxonomy.
Qed.

Lemma frames_check_lineage organism_name :
  frames f (query select_tax_id) →
  (∀ id name parent, frames f (query (insert_taxonomy id name parent))) →
  frames f (check_lineage ncbi organism_name).
Proof.
  intros Hs Hq. unfold check_lineage.
  apply frames_bind; [done|]. intros present_taxa.
  apply frames_bind; [apply frames_lift|]. intros lineage.
  apply frames_bind; [by apply frames_check_taxa|]. intros _.
  apply frames_lift.
Qed.

Lemma frames_save_alignment fragment_data alignment :
  ignores_store f → ignores_stdout f →
  frames f (save_alignment ncbi fragment_data alignment).
Proof.
  intros Hs Ho. unfold save_alignment.
  apply frames_bind; [apply frames_lift|]. intros blast_results.
  apply frames_bind.
  - apply frames_try_except.
    + apply frames_bind; [|auto 10 with frames].
      apply frames_check_lineage; intros; by apply frames_query_store.
    + apply frames_bind; [apply frames_lift|]. intros hdr.
      apply frames_bind; [by apply frames_print | auto with frames].
  - intros tax_id.
    apply frames_bind; [by apply frames_query_store|]. intros _.
    apply frames_bind; [apply frames_lift|]. intros hdr.
    apply frames_bind; [by apply frames_query_store | auto with frames].
Qed.

Lemma frames_blast_results_save fragment_data blast_results :
  ignores_store f → ignores_stdout f →
  frames f (blast_results_save ncbi blast fragment_data blast_results).
Proof.
  intros Hs Ho. unfold blast_results_save.
  apply frames_bind; [apply frames_lift|]. intros parsed.
  apply frames_bind; [by apply frames_query_store|]. intros _.
  apply frames_for_each. intros alignment. by apply frames_save_alignment.
Qed.

End Frames.

(** ** The search request *)

(** C1: the request that [processing] sends for a fragment carries hit list
    size 5, matrix BLOSUM62, gap costs "11 1" and word size 6, but its
    expect threshold is the integer [10 xor -5 = -15], which is not the
    number 1e-5. *)
Theorem processing_request_expect (ncbi : NCBITaxa) (blast : Blast)
    (hdr sq : string) (rest : list string) (w : world) :
  ∃ request,
    blast_log (processing ncbi blast (hdr :: sq :: rest) w).1
    = blast_log w ++ [request]
    ∧ sequence request = sq
    ∧ hitlist_size request = 5
    ∧ matrix_name request = "BLOSUM62"
    ∧ gapcosts request = "11 1"
    ∧ word_size request = 6
    ∧ expect request = -15
    ∧ ¬ (inject_Z (expect request) == 1 # 100000)%Q.
Proof.
  exists (qblast_request sq). split; [|by repeat split].
  unfold processing, send_qblast, print. repeat (rewrite run_bind; simpl).
  destruct (qblast blast (qblast_request sq)) as [doc|e]; simpl; [|done].
  repeat (rewrite run_bind; simpl).
  rewrite (frames_blast_results_save ncbi blast blast_log); done.
Qed.

(** ** The loop of [update_taxonomy] *)

Lemma parent_of_first (lineage : list Z) : parent_of lineage 0 = Ok None.
Proof. reflexivity. Qed.

Lemma parent_of_next (lineage : list Z) (pos : nat) :
  parent_of lineage (S pos)
  = match lineage !! pos with
    | Some parent => Ok (Some parent)
    | None => Raise IndexError
    end.
Proof.
  unfold parent_of. cbv zeta.
  replace (Z.of_nat (S pos) - 1) with (Z.of_nat pos) by lia.
  destruct (Z.leb_spec 0 (Z.of_nat pos)) as [_|?]; [|lia].
  rewrite Nat2Z.id. unfold py_index. by destruct (lineage !! pos).
Qed.

Lemma query_insert_taxonomy (id : Z) (name : string) (parent : option Z)
    (w : world) :
  query (insert_taxonomy id name parent) w
  = if decide (id ∈ tax_ids (db w))
    then (logged (insert_taxonomy id name parent) w, Raise IntegrityError)
    else (taxon_added id name parent w, Ok no_rows).
Proof. unfold query. simpl. by case_decide. Qed.

Section Lineage.

Context (ncbi : NCBITaxa).

(** Every run of the loop is one of the runs of [loop_run]. *)
Lemma update_loop_run (current_tax : gset Z) (lineage rest : list Z)
    (pos : nat) (w w' : world) (r : result unit) :
  for_each (enumerate_from pos rest)
    (λ '(pos, tax_id), update_taxon ncbi current_tax lineage pos tax_id) w
  = (w', r) →
  loop_run ncbi current_tax lineage pos rest w w' r.
Proof.
  revert pos w. induction rest as [|tax_id rest IH]; intros pos w; simpl.
  - intros [= <- <-]. constructor.
  - rewrite run_bind. unfold update_taxon at 1.
    destruct (decide (tax_id ∈ current_tax)) as [Hin|Hout].
    { rewrite run_ret. intros Hrest. apply run_present; [done|]. by apply IH. }
    rewrite run_bind, run_lift.
    destruct (parent_of lineage pos) as [parent|e] eqn:Hparent;
      [|intros [= <- <-]; by apply run_no_parent].
    rewrite run_bind, run_lift.
    destruct (taxon_name ncbi tax_id) as [name|e] eqn:Hname;
      [|intros [= <- <-]; by eapply run_no_name].
    rewrite run_bind, query_insert_taxonomy.
    destruct (decide (tax_id ∈ tax_ids (db w))) as [Hdup|Hfresh].
    { intros [= <- <-]. by eapply run_refused. }
    rewrite run_ret. intros Hrest. eapply run_inserted; [done..|]. by apply IH.
Qed.

Lemma update_taxonomy_run (current_tax : gset Z) (lineage : list Z)
    (w w' : world) (r : result unit) :
  update_taxonomy ncbi current_tax lineage w = (w', r) →
  loop_run ncbi current_tax lineage 0 lineage w w' r.
Proof. apply update_loop_run. Qed.

(** The loop of [check_lineage] comes to the same as a call of
    [update_taxonomy], which writes nothing when every taxon is known. *)
Lemma loop_run_all_present (current_tax : gset Z) (lineage rest : list Z)
    (pos : nat) (w w' : world) (r : result unit) :
  loop_run ncbi current_tax lineage pos rest w w' r →
  Forall (λ tax_id, tax_id ∈ current_tax) rest →
  w' = w ∧ r = Ok tt.
Proof.
  induction 1 as [| ? ? ? ? ? ? ? ? IH | | | | ]; intros Hall;
    try done; apply Forall_cons in Hall as [Hhd Htl]; try done.
  by apply IH.
Qed.

Lemma check_taxa_update (tax_set : gset Z) (lineage reversed : list Z)
    (w : world) :
  (Forall (λ tax_id, tax_id ∈ tax_set) reversed →
   Forall (λ tax_id, tax_id ∈ tax_set) lineage) →
  check_taxa ncbi tax_set lineage reversed w
  = update_taxonomy ncbi tax_set lineage w.
Proof.
  induction reversed as [|tax_id rest IH]; simpl; intros Hall.
  - destruct (update_taxonomy ncbi tax_set lineage w) as [w' r] eqn:Hrun.
    apply update_taxonomy_run, loop_run_all_present in Hrun as [-> ->];
      [done | by apply Hall].
  - case_decide as Hin; [|done]. apply IH. intros Hrest.
    apply Hall. by constructor.
Qed.

Lemma check_taxa_reverse (tax_set : gset Z) (lineage : list Z) (w : world) :
  check_taxa ncbi tax_set lineage (reverse lineage) w
  = update_taxonomy ncbi tax_set lineage w.
Proof.
  apply check_taxa_update. rewrite !Forall_forall. intros Hall x Hx.
  apply Hall. by apply elem_of_reverse.
Qed.

Lemma drop_cons_inv (lineage rest : list Z) (pos : nat) (tax_id : Z) :
  drop pos lineage = tax_id :: rest →
  lineage !! pos = Some tax_id ∧ drop (S pos) lineage = rest.
Proof.
  intros Hdrop.
  assert (lineage !! pos = Some tax_id) as Hpos.
  { replace pos with (pos + 0)%nat by lia. by rewrite <- lookup_drop, Hdrop. }
  split; [done|]. rewrite (drop_S _ _ _ Hpos) in Hdrop. by injection Hdrop.
Qed.

Lemma parent_of_chain (lineage : list Z) (pos : nat) (parent : option Z) :
  parent_of lineage pos = Ok parent →
  parent = match pos with
           | O => None
           | S before => lineage !! before
           end
  ∧ (∀ x, parent = Some x → ∃ before, pos = S before ∧ lineage !! before = Some x).
Proof.
  destruct pos as [|before].
  - rewrite parent_of_first. intros [= <-]. split; [done|]. intros x [=].
  - rewrite parent_of_next. destruct (lineage !! before) as [x|] eqn:Hx; [|done].
    intros [= <-]. split; [done|]. intros ? [= <-]. eauto.
Qed.

(** The rows that a run adds to the taxonomy table. *)
Lemma loop_run_rows (current_tax : gset Z) (lineage rest : list Z)
    (pos : nat) (w w' : world) (r : result unit) :
  loop_run ncbi current_tax lineage pos rest w w' r →
  drop pos lineage = rest →
  (∀ id, id ∈ current_tax → id ∈ tax_ids (db w)) →
  (∀ before x, pos = S before → lineage !! before = Some x →
               x ∈ tax_ids (db w)) →
  ∃ rows,
    taxonomy (db w') = taxonomy (db w) ++ rows
    ∧ Forall (chain_parent lineage) rows
    ∧ sublist (tax_id <$> rows) rest
    ∧ ∀ pre row post, rows = pre ++ row :: post →
        parent_known (tax_ids (db w) ++ (tax_id <$> pre)) row.
Proof.
  induction 1 as [pos w
                 |pos tax_id rest w w' r Hin Hrun IH
                 |pos tax_id rest w e Hout Hparent
                 |pos tax_id rest w parent e Hout Hparent Hname
                 |pos tax_id rest w parent name Hout Hparent Hname Hdup
                 |pos tax_id rest w parent name w' r Hout Hparent Hname Hfresh
                    Hrun IH];
    intros Hdrop Hsnap Hprev.
  - exists []. rewrite app_nil_r. repeat split; try done.
    intros [|??] ???; discriminate.
  - apply drop_cons_inv in Hdrop as [Hpos Hdrop].
    destruct IH as (rows & Hrows & Hchain & Hsub & Hknown); [done..| |].
    { intros before x [= <-] Hx. apply Hsnap. congruence. }
    exists rows. repeat split; try done. by apply sublist_cons.
  - exists []. rewrite app_nil_r. repeat split; try done.
    + apply sublist_nil_l.
    + intros [|??] ???; discriminate.
  - exists []. rewrite app_nil_r. repeat split; try done.
    + apply sublist_nil_l.
    + intros [|??] ???; discriminate.
  - exists []. simpl. rewrite app_nil_r. repeat split; try done.
    + apply sublist_nil_l.
    + intros [|??] ???; discriminate.
  - apply drop_cons_inv in Hdrop as [Hpos Hdrop].
    apply parent_of_chain in Hparent as [Hparent Hsome].
    assert (tax_ids (db (taxon_added tax_id name parent w))
            = tax_ids (db w) ++ [tax_id]) as Hids.
    { unfold tax_ids. simpl. by rewrite fmap_app. }
    destruct IH as (rows & Hrows & Hchain & Hsub & Hknown); [done| | |].
    { intros id Hid. rewrite Hids. apply elem_of_app. left. by apply Hsnap. }
    { intros before x [= <-] Hx. rewrite Hids. apply elem_of_app. right.
      apply list_elem_of_singleton. congruence. }
    exists (Build_taxon_row tax_id name parent :: rows). repeat split.
    + rewrite Hrows. simpl. by rewrite <- app_assoc.
    + constructor; [|done]. exists pos. by split.
    + simpl. by apply sublist_skip.
    + intros [|row0 pre] row post Heq; simplify_eq/=.
      * rewrite app_nil_r. unfold parent_known. simpl.
        destruct (match pos with O => None | S b => lineage !! b end) as [x|] eqn:Hx;
          [|done].
        destruct (Hsome x eq_refl) as (before & -> & Hbefore). by eapply Hprev.
      * specialize (Hknown pre row post eq_refl).
        by rewrite Hids, <- app_assoc in Hknown.
Qed.

(** The statements that a run sends. *)
Lemma loop_run_log (current_tax : gset Z) (lineage rest : list Z)
    (pos : nat) (w w' : world) (r : result unit) :
  loop_run ncbi current_tax lineage pos rest w w' r →
  ∃ stmts,
    sql_log w' = sql_log w ++ stmts
    ∧ Forall (λ q, ∃ id name parent,
                q = insert_taxonomy id name parent ∧ id ∉ current_tax) stmts
    ∧ sublist (omap inserted_id stmts) rest.
Proof.
  induction 1 as [pos w
                 |pos tax_id rest w w' r Hin Hrun IH
                 |pos tax_id rest w e Hout Hparent
                 |pos tax_id rest w parent e Hout Hparent Hname
                 |pos tax_id rest w parent name Hout Hparent Hname Hdup
                 |pos tax_id rest w parent name w' r Hout Hparent Hname Hfresh
                    Hrun IH].
  - exists []. by rewrite app_nil_r.
  - destruct IH as (stmts & Hlog & Hstmts & Hsub).
    exists stmts. repeat split; try done. by apply sublist_cons.
  - exists []. rewrite app_nil_r. repeat split; try done. apply sublist_nil_l.
  - exists []. rewrite app_nil_r. repeat split; try done. apply sublist_nil_l.
  - exists [insert_taxonomy tax_id name parent]. repeat split.
    + constructor; [|done]. by eexists _, _, _.
    + simpl. apply sublist_skip, sublist_nil_l.
  - destruct IH as (stmts & Hlog & Hstmts & Hsub).
    exists (insert_taxonomy tax_id name parent :: stmts). repeat split.
    + rewrite Hlog. simpl. by rewrite <- app_assoc.
    + constructor; [|done]. by eexists _, _, _.
    + simpl. by apply sublist_skip.
Qed.

Lemma tax_ids_taxon_added (id : Z) (name : string) (parent : option Z)
    (w : world) :
  tax_ids (db (taxon_added id name parent w)) = tax_ids (db w) ++ [id].
Proof. unfold tax_ids. simpl. by rewrite fmap_app. Qed.

(** When the taxa to visit are distinct and the snapshot holds those that
    are stored, the server accepts every insert that a run sends. *)
Lemma loop_run_accepted (current_tax : gset Z) (lineage rest : list Z)
    (pos : nat) (w w' : world) (r : result unit) :
  loop_run ncbi current_tax lineage pos rest w w' r →
  NoDup rest →
  (∀ id, id ∈ rest → id ∉ current_tax → id ∉ tax_ids (db w)) →
  ∃ stmts,
    sql_log w' = sql_log w ++ stmts
    ∧ tax_ids (db w') = tax_ids (db w) ++ omap inserted_id stmts.
Proof.
  induction 1 as [pos w
                 |pos tax_id rest w w' r Hin Hrun IH
                 |pos tax_id rest w e Hout Hparent
                 |pos tax_id rest w parent e Hout Hparent Hname
                 |pos tax_id rest w parent name Hout Hparent Hname Hdup
                 |pos tax_id rest w parent name w' r Hout Hparent Hname Hfresh
                    Hrun IH];
    intros Hnodup Hsnap; try (exists []; by rewrite !app_nil_r).
  - apply NoDup_cons in Hnodup as [_ Hnodup]. apply IH; [done|].
    intros id Hid. apply Hsnap. by constructor.
  - exfalso. eapply Hsnap; [|done..]. by constructor.
  - apply NoDup_cons in Hnodup as [Hhd Hnodup].
    destruct IH as (stmts & Hlog & Hids); [done| |].
    { intros id Hid Hnew. rewrite tax_ids_taxon_added.
      intros [Hold| ->%list_elem_of_singleton]%elem_of_app; [|done].
      revert Hold. apply Hsnap; [by constructor|done]. }
    exists (insert_taxonomy tax_id name parent :: stmts). split.
    + rewrite Hlog. simpl. by rewrite <- app_assoc.
    + rewrite Hids, tax_ids_taxon_added. simpl. by rewrite <- app_assoc.
Qed.

(** A run that comes to its end has stored every taxon that the snapshot
    lacked. *)
Lemma loop_run_ok_ids (current_tax : gset Z) (lineage rest : list Z)
    (pos : nat) (w w' : world) (r : result unit) :
  loop_run ncbi current_tax lineage pos rest w w' r →
  r = Ok tt →
  tax_ids (db w')
  = tax_ids (db w) ++ filter (λ id, id ∉ current_tax) rest.
Proof.
  induction 1 as [pos w
                 |pos tax_id rest w w' r Hin Hrun IH
                 |pos tax_id rest w e Hout Hparent
                 |pos tax_id rest w parent e Hout Hparent Hname
                 |pos tax_id rest w parent name Hout Hparent Hname Hdup
                 |pos tax_id rest w parent name w' r Hout Hparent Hname Hfresh
                    Hrun IH];
    intros Hr; try done.
  - by rewrite filter_nil, app_nil_r.
  - rewrite filter_cons_False by (intros Hn; by apply Hn). by apply IH.
  - rewrite filter_cons_True by done.
    rewrite IH, tax_ids_taxon_added by done. by rewrite <- app_assoc.
Qed.

(** With distinct taxa, a snapshot of the stored ones and a name for every
    taxon, a run comes to its end. *)
Lemma loop_run_total (current_tax : gset Z) (lineage rest : list Z)
    (pos : nat) (w w' : world) (r : result unit) :
  loop_run ncbi current_tax lineage pos rest w w' r →
  drop pos lineage = rest →
  NoDup rest →
  (∀ id, id ∈ rest → id ∉ current_tax → id ∉ tax_ids (db w)) →
  Forall (λ id, ∃ name, taxon_name ncbi id = Ok name) rest →
  r = Ok tt.
Proof.
  induction 1 as [pos w
                 |pos tax_id rest w w' r Hin Hrun IH
                 |pos tax_id rest w e Hout Hparent
                 |pos tax_id rest w parent e Hout Hparent Hname
                 |pos tax_id rest w parent name Hout Hparent Hname Hdup
                 |pos tax_id rest w parent name w' r Hout Hparent Hname Hfresh
                    Hrun IH];
    intros Hdrop Hnodup Hsnap Hnames; try done.
  - apply drop_cons_inv in Hdrop as [_ Hdrop].
    apply NoDup_cons in Hnodup as [_ Hnodup].
    apply Forall_cons in Hnames as [_ Hnames].
    apply IH; try done. intros id Hid. apply Hsnap. by constructor.
  - exfalso. apply drop_cons_inv in Hdrop as [Hpos _].
    destruct pos as [|before]; [by rewrite parent_of_first in Hparent|].
    rewrite parent_of_next in Hparent.
    destruct (lineage !! before) eqn:Hbefore; [done|].
    apply lookup_ge_None in Hbefore. apply lookup_lt_Some in Hpos. lia.
  - exfalso. apply Forall_cons in Hnames as [[name Hname'] _]. congruence.
  - exfalso. eapply Hsnap; [|done..]. by constructor.
  - apply drop_cons_inv in Hdrop as [_ Hdrop].
    apply NoDup_cons in Hnodup as [Hhd Hnodup].
    apply Forall_cons in Hnames as [_ Hnames].
    apply IH; try done.
    intros id Hid Hnew. rewrite tax_ids_taxon_added.
    intros [Hold| ->%list_elem_of_singleton]%elem_of_app; [|done].
    revert Hold. apply Hsnap; [by constructor|done].
Qed.

(** A run only adds to the taxonomy table. *)
Lemma loop_run_grows (current_tax : gset Z) (lineage rest : list Z)
    (pos : nat) (w w' : world) (r : result unit) :
  loop_run ncbi current_tax lineage pos rest w w' r →
  ∀ id, id ∈ tax_ids (db w) → id ∈ tax_ids (db w').
Proof.
  induction 1 as [| | | | |pos tax_id rest w parent name w' r _ _ _ _ _ IH];
    intros id Hid; auto.
  apply IH. rewrite tax_ids_taxon_added. apply elem_of_app. by left.
Qed.

(** After a run from a snapshot of the stored taxa, over distinct taxa, the
    same loop from a snapshot of the table as the run left it sends nothing
    and ends as the run did. *)
Lemma loop_run_again (current_tax : gset Z) (lineage rest : list Z)
    (pos : nat) (w w' : world) (r : result unit) :
  loop_run ncbi current_tax lineage pos rest w w' r →
  NoDup rest →
  (∀ id, id ∈ current_tax → id ∈ tax_ids (db w)) →
  (∀ id, id ∈ rest → id ∉ current_tax → id ∉ tax_ids (db w)) →
  ∀ (later_tax : gset Z) (w2 : world),
    (∀ id, id ∈ later_tax ↔ id ∈ tax_ids (db w')) →
    for_each (enumerate_from pos rest)
      (λ '(pos, tax_id), update_taxon ncbi later_tax lineage pos tax_id) w2
    = (w2, r).
Proof.
  induction 1 as [pos w
                 |pos tax_id rest w w' r Hin Hrun IH
                 |pos tax_id rest w e Hout Hparent
                 |pos tax_id rest w parent e Hout Hparent Hname
                 |pos tax_id rest w parent name Hout Hparent Hname Hdup
                 |pos tax_id rest w parent name w' r Hout Hparent Hname Hfresh
                    Hrun IH];
    intros Hnodup Hsnap Hnew later_tax w2 Hlater; simpl.
  - done.
  - apply NoDup_cons in Hnodup as [_ Hnodup].
    rewrite run_bind. unfold update_taxon at 1.
    destruct (decide (tax_id ∈ later_tax)) as [_|Hmiss].
    + rewrite run_ret. apply IH; try done.
      intros id Hid. apply Hnew. by constructor.
    + exfalso. apply Hmiss, Hlater.
      eapply loop_run_grows; [done|]. by apply Hsnap.
  - rewrite run_bind. unfold update_taxon.
    destruct (decide (tax_id ∈ later_tax)) as [Hthere|_].
    + exfalso. apply Hlater in Hthere. revert Hthere.
      apply Hnew; [by constructor|done].
    + by rewrite run_bind, run_lift, Hparent.
  - rewrite run_bind. unfold update_taxon.
    destruct (decide (tax_id ∈ later_tax)) as [Hthere|_].
    + exfalso. apply Hlater in Hthere. revert Hthere.
      apply Hnew; [by constructor|done].
    + by rewrite run_bind, run_lift, Hparent, run_bind, run_lift, Hname.
  - exfalso. eapply Hnew; [|done..]. by constructor.
  - apply NoDup_cons in Hnodup as [Hhd Hnodup].
    rewrite run_bind. unfold update_taxon at 1.
    destruct (decide (tax_id ∈ later_tax)) as [_|Hmiss].
    + rewrite run_ret. apply IH; try done.
      * intros id Hid. rewrite tax_ids_taxon_added. apply elem_of_app.
        left. by apply Hsnap.
      * intros id Hid Hout'. rewrite tax_ids_taxon_added.
        intros [Hold| ->%list_elem_of_singleton]%elem_of_app; [|done].
        revert Hold. apply Hnew; [by constructor|done].
    + exfalso. apply Hmiss, Hlater.
      eapply loop_run_grows; [done|]. rewrite tax_ids_taxon_added.
      apply elem_of_app. right. by apply list_elem_of_singleton.
Qed.

(** [check_lineage] step by step: the snapshot is taken, the lineage is
    looked up, the missing taxa are stored, the last taxon is returned. *)
Lemma check_lineage_run (organism_name : option string) (w : world) :
  check_lineage ncbi organism_name w
  = match get_lineage ncbi organism_name with
    | Raise e => (logged select_tax_id w, Raise e)
    | Ok lineage =>
        match update_taxonomy ncbi (list_to_set (tax_ids (db w))) lineage
                (logged select_tax_id w) with
        | (w', Ok _) => (w', py_last lineage)
        | (w', Raise e) => (w', Raise e)
        end
    end.
Proof.
  unfold check_lineage. rewrite run_bind. unfold query at 1. simpl.
  fold (logged select_tax_id w). rewrite run_bind, run_lift.
  destruct (get_lineage ncbi organism_name) as [lineage|e]; [|done].
  rewrite run_bind, check_taxa_reverse.
  by destruct (update_taxonomy _ _ _ _) as [w' [[]|e]].
Qed.

End Lineage.

(** ** Lineage resolution *)

Lemma elem_of_snapshot (s : store) (id : Z) :
  id ∈ (list_to_set (tax_ids s) : gset Z) ↔ id ∈ tax_ids s.
Proof. apply elem_of_list_to_set. Qed.

(** C6: in one pass of [check_lineage], whether it comes to its end or
    fails on the way, the taxonomy table grows by rows whose parent is null
    or is a taxon that was stored before the pass or by an earlier row of
    the pass.  Each row holds a taxon of the lineage with the element before
    it as parent (null at the first position), the rows follow the order of
    the lineage from root to leaf, and a pass that comes to its end has
    stored every taxon that was missing. *)
Theorem check_lineage_parent_present (ncbi : NCBITaxa)
    (organism_name : option string) (w : world) :
  ∃ rows,
    taxonomy (db (check_lineage ncbi organism_name w).1)
    = taxonomy (db w) ++ rows
    ∧ (∀ pre row post, rows = pre ++ row :: post →
         parent_tax_id row = None
         ∨ ∃ parent, parent_tax_id row = Some parent
                     ∧ (parent ∈ tax_ids (db w) ∨ parent ∈ tax_id <$> pre))
    ∧ (∀ lineage, get_lineage ncbi organism_name = Ok lineage →
         Forall (chain_parent lineage) rows
         ∧ sublist (tax_id <$> rows) lineage
         ∧ (∀ leaf, (check_lineage ncbi organism_name w).2 = Ok leaf →
              tax_id <$> rows
              = filter (λ id, id ∉ tax_ids (db w)) lineage)).
Proof.
  rewrite check_lineage_run.
  destruct (get_lineage ncbi organism_name) as [lineage|e]; simpl.
  2:{ exists []. rewrite app_nil_r. repeat split; try done.
      intros [|??] ???; discriminate. }
  destruct (update_taxonomy _ _ _ _) as [w' r] eqn:Hrun.
  apply update_taxonomy_run in Hrun.
  destruct (loop_run_rows _ _ _ _ _ _ _ _ Hrun)
    as (rows & Hrows & Hchain & Hsub & Hknown); [done| | |].
  { intros id. by rewrite elem_of_snapshot. }
  { by intros before x [=]. }
  exists rows. simpl in *. split; [by destruct r as [[]|]|]. split.
  - intros pre row post Heq. specialize (Hknown pre row post Heq).
    unfold parent_known in Hknown.
    destruct (parent_tax_id row) as [parent|]; [right|by left].
    exists parent. split; [done|]. by apply elem_of_app.
  - intros ? [= <-]. repeat split; try done.
    intros leaf Hleaf. destruct r as [[]|e]; [|done].
    apply loop_run_ok_ids in Hrun; [|done]. simpl in Hrun.
    unfold tax_ids in Hrun at 1 2. rewrite Hrows, fmap_app in Hrun.
    apply app_inv_head in Hrun. rewrite Hrun.
    apply list_filter_iff. intros id. by rewrite elem_of_snapshot.
Qed.

Lemma py_last_nonempty (lineage : list Z) :
  lineage ≠ [] → ∃ leaf, last lineage = Some leaf ∧ py_last lineage = Ok leaf.
Proof.
  intros Hne. unfold py_last. destruct (last lineage) as [leaf|] eqn:Hlast.
  - by exists leaf.
  - by apply last_None in Hlast.
Qed.

(** C7: for an organism that the source knows, with a lineage of distinct
    taxa, two calls of [check_lineage] in a row end in the same way; the
    second call sends its [select] and nothing else, so the tables stay as
    the first call left them, and a taxonomy table without duplicate ids
    still has none.  When the lineage is not empty and the source has a name
    for each of its taxa, both calls return the leaf taxon. *)
Theorem check_lineage_idempotent (ncbi : NCBITaxa)
    (organism_name : option string) (lineage : list Z) (w : world) :
  get_lineage ncbi organism_name = Ok lineage →
  NoDup lineage →
  ∃ w1 r,
    check_lineage ncbi organism_name w = (w1, r)
    ∧ check_lineage ncbi organism_name w1 = (logged select_tax_id w1, r)
    ∧ db (logged select_tax_id w1) = db w1
    ∧ (NoDup (tax_ids (db w)) → NoDup (tax_ids (db w1)))
    ∧ (lineage ≠ [] →
       Forall (λ id, ∃ name, taxon_name ncbi id = Ok name) lineage →
       ∃ leaf, last lineage = Some leaf ∧ r = Ok leaf).
Proof.
  intros Hlineage Hnodup.
  rewrite check_lineage_run, Hlineage.
  destruct (update_taxonomy _ _ _ _) as [w1 r1] eqn:Hrun.
  apply update_taxonomy_run in Hrun.
  assert (∀ id, id ∈ lineage →
            id ∉ (list_to_set (tax_ids (db w)) : gset Z) →
            id ∉ tax_ids (db (logged select_tax_id w))) as Hnew.
  { intros id _. by rewrite elem_of_snapshot. }
  assert (∀ id, id ∈ (list_to_set (tax_ids (db w)) : gset Z) →
            id ∈ tax_ids (db (logged select_tax_id w))) as Hsnap.
  { intros id. by rewrite elem_of_snapshot. }
  exists w1, (match r1 with Ok _ => py_last lineage | Raise e => Raise e end).
  split; [by destruct r1 as [[]|]|]. split; [|split; [done|split]].
  - rewrite check_lineage_run, Hlineage. unfold update_taxonomy, enumerate.
    rewrite (loop_run_again _ _ _ _ _ _ _ _ Hrun Hnodup Hsnap Hnew).
    + destruct r1; reflexivity.
    + intros id. apply elem_of_snapshot.
  - intros Hstore.
    destruct (loop_run_log _ _ _ _ _ _ _ _ Hrun)
      as (stmts & Hlog & Hstmts & Hsub).
    destruct (loop_run_accepted _ _ _ _ _ _ _ _ Hrun Hnodup Hnew)
      as (stmts' & Hlog' & Hids).
    rewrite Hlog in Hlog'. apply app_inv_head in Hlog' as <-.
    rewrite Hids. cbn [db logged]. apply NoDup_app. split; [done|]. split.
    + intros id Hold (q & Hq & Hkey)%list_elem_of_omap.
      rewrite Forall_forall in Hstmts.
      destruct (Hstmts q Hq) as (id' & name & parent & -> & Hmiss).
      injection Hkey as <-. by rewrite elem_of_snapshot in Hmiss.
    + by apply (sublist_NoDup _ lineage).
  - intros Hne Hnames.
    destruct (py_last_nonempty lineage Hne) as (leaf & Hlast & Hleaf).
    exists leaf. split; [done|].
    by rewrite (loop_run_total _ _ _ _ _ _ _ _ Hrun eq_refl Hnodup Hnew Hnames).
Qed.

Lemma check_lineage_idempotent_witness :
  ∃ w1,
    check_lineage sample_ncbi (Some "Escherichia coli") bacteria_world
    = (w1, Ok 562)
    ∧ check_lineage sample_ncbi (Some "Escherichia coli") w1
      = (logged select_tax_id w1, Ok 562)
    ∧ NoDup (tax_ids (db w1)).
Proof.
  destruct (check_lineage_idempotent sample_ncbi (Some "Escherichia coli")
              [131567; 2; 562] bacteria_world)
    as (w1 & r & Hfirst & Hsecond & _ & Hnodup & Hleaf).
  - reflexivity.
  - compute_done.
  - destruct Hleaf as (leaf & Hlast & ->).
    + discriminate.
    + repeat constructor; eexists; reflexivity.
    + injection Hlast as <-. exists w1. repeat split; try assumption.
      apply Hnodup. compute_done.
Defined.

(** C10: in one call of [update_taxonomy] on a lineage of distinct taxa,
    every statement sent is a taxonomy insert for a taxon that the snapshot
    [current_tax] lacks; the keys of these inserts are taxa of the lineage,
    in its order, and no key comes twice.  In a pass of [check_lineage],
    where the snapshot is the set of stored ids, the server accepts every
    insert sent (each adds its row), so none of them meets a duplicate
    key. *)
Theorem update_taxonomy_inserts_once (ncbi : NCBITaxa) (current_tax : gset Z)
    (lineage : list Z) (w : world) :
  NoDup lineage →
  (∃ stmts,
     sql_log (update_taxonomy ncbi current_tax lineage w).1
     = sql_log w ++ stmts
     ∧ Forall (λ q, ∃ id name parent,
                 q = insert_taxonomy id name parent ∧ id ∉ current_tax) stmts
     ∧ sublist (omap inserted_id stmts) lineage
     ∧ NoDup (omap inserted_id stmts))
  ∧ (∀ organism_name,
       get_lineage ncbi organism_name = Ok lineage →
       ∃ stmts,
         sql_log (check_lineage ncbi organism_name w).1
         = sql_log w ++ select_tax_id :: stmts
         ∧ tax_ids (db (check_lineage ncbi organism_name w).1)
           = tax_ids (db w) ++ omap inserted_id stmts
         ∧ NoDup (omap inserted_id stmts)
         ∧ Forall (λ id, id ∉ tax_ids (db w)) (omap inserted_id stmts)).
Proof.
  intros Hnodup. split.
  - destruct (update_taxonomy ncbi current_tax lineage w) as [w' r] eqn:Hrun.
    apply update_taxonomy_run, loop_run_log in Hrun
      as (stmts & Hlog & Hstmts & Hsub).
    exists stmts. repeat split; try done. by eapply sublist_NoDup.
  - intros organism_name Hlineage. rewrite check_lineage_run, Hlineage.
    destruct (update_taxonomy _ _ _ _) as [w' r] eqn:Hrun.
    apply update_taxonomy_run in Hrun.
    destruct (loop_run_log _ _ _ _ _ _ _ _ Hrun)
      as (stmts & Hlog & Hstmts & Hsub).
    destruct (loop_run_accepted _ _ _ _ _ _ _ _ Hrun Hnodup)
      as (stmts' & Hlog' & Hids).
    { intros id _. by rewrite elem_of_snapshot. }
    rewrite Hlog in Hlog'. apply app_inv_head in Hlog' as <-.
    exists stmts. simpl in *.
    repeat split.
    + destruct r as [[]|]; simpl; by rewrite Hlog, <- app_assoc.
    + by destruct r as [[]|].
    + by eapply sublist_NoDup.
    + apply Forall_forall. intros id Hid.
      apply list_elem_of_omap in Hid as (q & Hq & Hkey).
      rewrite Forall_forall in Hstmts.
      destruct (Hstmts q Hq) as (id' & name & parent & -> & Hnew).
      injection Hkey as <-. by rewrite elem_of_snapshot in Hnew.
Qed.

Lemma update_taxonomy_inserts_once_witness :
  ∃ stmts,
    sql_log (check_lineage sample_ncbi (Some "Escherichia coli")
               bacteria_world).1
    = sql_log bacteria_world ++ select_tax_id :: stmts
    ∧ tax_ids (db (check_lineage sample_ncbi (Some "Escherichia coli")
                     bacteria_world).1)
      = tax_ids (db bacteria_world) ++ omap inserted_id stmts
    ∧ NoDup (omap inserted_id stmts)
    ∧ Forall (λ id, id ∉ tax_ids (db bacteria_world))
        (omap inserted_id stmts).
Proof.
  refine (proj2 (update_taxonomy_inserts_once sample_ncbi ∅ [131567; 2; 562]
                   bacteria_world _) (Some "Escherichia coli") _).
  - compute_done.
  - reflexivity.
Defined.

(** C5: the taxonomy insert is a plain [insert]: when [update_taxonomy]
    works from a snapshot that lacks a taxon which the table holds by now,
    the server refuses the insert with a duplicate-entry error, which
    [update_taxonomy] lets through; the insert is not a silent no-op. *)
Theorem update_taxonomy_duplicate_refused (ncbi : NCBITaxa)
    (current_tax : gset Z) (id : Z) (name : string) (w : world) :
  id ∉ current_tax →
  id ∈ tax_ids (db w) →
  taxon_name ncbi id = Ok name →
  update_taxonomy ncbi current_tax [id] w
  = (logged (insert_taxonomy id name None) w, Raise IntegrityError).
Proof.
  intros Hstale Hstored Hname.
  unfold update_taxonomy, enumerate. simpl.
  rewrite run_bind. unfold update_taxon.
  destruct (decide (id ∈ current_tax)) as [?|_]; [done|].
  rewrite run_bind, run_lift, parent_of_first.
  rewrite run_bind, run_lift, Hname.
  rewrite run_bind, query_insert_taxonomy.
  by destruct (decide (id ∈ tax_ids (db w))).
Qed.

Lemma update_taxonomy_duplicate_refused_witness :
  update_taxonomy sample_ncbi ∅ [2] bacteria_world
  = (logged (insert_taxonomy 2 "Bacteria" None) bacteria_world,
     Raise IntegrityError).
Proof.
  apply (update_taxonomy_duplicate_refused sample_ncbi ∅ 2 "Bacteria"
           bacteria_world).
  - set_solver.
  - compute_done.
  - reflexivity.
Defined.

(** ** Saving the results of one fragment *)

Lemma query_insert_ignore_protein (acc : string) (id : option Z)
    (sq : option string) (name : string) (w : world) :
  let q := insert_ignore_protein acc id sq name in
  ∃ w', query q w = (w', Ok no_rows)
        ∧ sql_log w' = sql_log w ++ [q]
        ∧ stdout w' = stdout w
        ∧ taxonomy (db w') = taxonomy (db w)
        ∧ fragment (db w') = fragment (db w)
        ∧ blast_result (db w') = blast_result (db w)
        ∧ protein (db w')
          = protein (db w) ++
            (if decide (acc ∈ accessions (db w)) then []
             else [Build_protein_row acc id sq name]).
Proof.
  unfold query. simpl. case_decide; eexists; (split; [done|]); simpl.
  - by rewrite app_nil_r.
  - done.
Qed.

Lemma query_insert_blast_result (hdr acc : string) (score expect : Q)
    (identities positives gaps : Z) (w : world) :
  let q := insert_blast_result hdr acc score expect identities positives gaps in
  ∃ w', query q w = (w', Ok no_rows)
        ∧ sql_log w' = sql_log w ++ [q]
        ∧ stdout w' = stdout w
        ∧ taxonomy (db w') = taxonomy (db w)
        ∧ fragment (db w') = fragment (db w)
        ∧ protein (db w') = protein (db w)
        ∧ blast_result (db w')
          = blast_result (db w) ++
            [Build_blast_row (fragment_id_of (db w) hdr) acc score expect
               identities positives gaps].
Proof. unfold query. simpl. by eexists. Qed.

(** The tables that a taxonomy insert leaves alone. *)
Lemma frames_insert_taxonomy {X} (f : store → X) (id : Z) (name : string)
    (parent : option Z) :
  (∀ s rows, f {| taxonomy := rows; fragment := fragment s;
                  protein := protein s; blast_result := blast_result s |}
             = f s) →
  frames (f ∘ db) (query (insert_taxonomy id name parent)).
Proof.
  intros Hf w. rewrite query_insert_taxonomy. case_decide; simpl; [done|].
  apply Hf.
Qed.

Lemma frames_check_lineage_table {X} (f : store → X) (ncbi : NCBITaxa)
    (organism_name : option string) :
  (∀ s rows, f {| taxonomy := rows; fragment := fragment s;
                  protein := protein s; blast_result := blast_result s |}
             = f s) →
  frames (f ∘ db) (check_lineage ncbi organism_name).
Proof.
  intros Hf. apply frames_check_lineage.
  - by intros w.
  - intros. by apply frames_insert_taxonomy.
Qed.

Lemma frames_check_lineage_stdout (ncbi : NCBITaxa)
    (organism_name : option string) :
  frames stdout (check_lineage ncbi organism_name).
Proof. apply frames_check_lineage; intros; by apply frames_query_store. Qed.

(** C4, as stated: a hit whose organism has the root alone as lineage is not
    recovered like an unknown organism; saving the fragment's results does
    not come to its end with a logged failure and a protein row without
    taxon. *)
Lemma empty_lineage_not_recovered_example :
  let out := blast_results_save sample_ncbi sample_blast sample_read "root"
               empty_world in
  get_lineage sample_ncbi (Some "root") = Ok []
  ∧ ¬ (out.2 = Ok tt
       ∧ lookup_error "read_1" (Some "root") "hypothetical protein [root]"
         ∈ stdout out.1
       ∧ Build_protein_row "XP_000000001" None None "hypothetical protein"
         ∈ protein (db out.1)).
Proof.
  split; [reflexivity|]. intros (Hout & _). vm_compute in Hout. discriminate.
Qed.

(** C4, amended: when the lineage of a hit's organism is empty,
    [check_lineage] raises IndexError after its [select], and the loop of
    [blast_results_save] stops at this hit with that error: only KeyError is
    caught, nothing is printed, no row is written for the hit, and the hits
    after it are not visited. *)
Theorem empty_lineage_aborts (ncbi : NCBITaxa) (fragment_data : list string)
    (alignment : Alignment) (rest : list Alignment) (hit : blast_hit)
    (w : world) :
  extract_results alignment = Ok hit →
  get_lineage ncbi (hit_organism_name hit) = Ok [] →
  let w' := logged select_tax_id w in
  check_lineage ncbi (hit_organism_name hit) w = (w', Raise IndexError)
  ∧ for_each (alignment :: rest) (save_alignment ncbi fragment_data) w
    = (w', Raise IndexError)
  ∧ stdout w' = stdout w
  ∧ db w' = db w.
Proof.
  intros Hhit Hlineage w'.
  assert (check_lineage ncbi (hit_organism_name hit) w
          = (w', Raise IndexError)) as Hcheck.
  { by rewrite check_lineage_run, Hlineage. }
  repeat split; [done|].
  rewrite for_each_cons. unfold save_alignment.
  rewrite run_bind, run_lift, Hhit, run_bind.
  unfold try_except. by rewrite run_bind, Hcheck.
Qed.

Lemma empty_lineage_aborts_witness :
  for_each [root_hit; coli_hit] (save_alignment sample_ncbi sample_read)
    empty_world
  = (logged select_tax_id empty_world, Raise IndexError).
Proof.
  refine (proj1 (proj2 (empty_lineage_aborts sample_ncbi sample_read root_hit
    [coli_hit]
    {| hit_score := 250; hit_expect := 1 # 1000000; hit_identities := 48;
       hit_gaps := 0; hit_positives := 60; hit_accession := "XP_000000001";
       hit_protein_name := "hypothetical protein";
       hit_organism_name := Some "root";
       hit_title := "hypothetical protein [root]" |}
    empty_world _ _))); reflexivity.
Defined.

(** C8, as stated: a lookup failure other than KeyError aborts the loop.
    For a fragment whose first hit has an organism with an empty lineage
    and whose second hit is Escherichia coli, saving the results does not
    come to its end, and no protein row is written for the second hit. *)
Lemma lookup_failure_aborts_other_records :
  let out := blast_results_save sample_ncbi sample_blast sample_read
               "root, coli" empty_world in
  (check_lineage sample_ncbi (Some "root")
     (query (insert_ignore_fragment sample_read) empty_world).1).2
  = Raise IndexError
  ∧ ¬ (out.2 = Ok tt ∨ "WP_000031783" ∈ accessions (db out.1)).
Proof.
  split; [reflexivity|]. intros [Hout|Hrow].
  - vm_compute in Hout. discriminate.
  - vm_compute in Hrow. by apply elem_of_nil in Hrow.
Qed.

(** C8, amended: when the lookup for a hit fails with KeyError (the source
    does not know the organism name, or has no name for a taxon of the
    lineage), [blast_results_save] prints the fragment header, the organism
    name and the hit title, sends the protein insert with a null taxon id
    and the alignment insert, and goes on with the hits that follow. *)
Theorem key_error_recovered (ncbi : NCBITaxa) (fragment_data : list string)
    (hdr : string) (alignment : Alignment) (rest : list Alignment)
    (hit : blast_hit) (w : world) :
  fragment_data !! 0%nat = Some hdr →
  extract_results alignment = Ok hit →
  (check_lineage ncbi (hit_organism_name hit) w).2 = Raise KeyError →
  let protein_insert :=
    insert_ignore_protein (hit_accession hit) None None
      (hit_protein_name hit) in
  let alignment_insert :=
    insert_blast_result hdr (hit_accession hit) (hit_score hit)
      (hit_expect hit) (hit_identities hit) (hit_positives hit)
      (hit_gaps hit) in
  ∃ w',
    save_alignment ncbi fragment_data alignment w = (w', Ok tt)
    ∧ for_each (alignment :: rest) (save_alignment ncbi fragment_data) w
      = for_each rest (save_alignment ncbi fragment_data) w'
    ∧ stdout w'
      = stdout w ++ [lookup_error hdr (hit_organism_name hit) (hit_title hit)]
    ∧ sql_log w'
      = sql_log (check_lineage ncbi (hit_organism_name hit) w).1
        ++ [protein_insert; alignment_insert]
    ∧ protein (db w')
      = protein (db w) ++
        (if decide (hit_accession hit ∈ accessions (db w)) then []
         else [Build_protein_row (hit_accession hit) None None
                 (hit_protein_name hit)])
    ∧ blast_result (db w')
      = blast_result (db w) ++
        [Build_blast_row (fragment_id_of (db w) hdr) (hit_accession hit)
           (hit_score hit) (hit_expect hit) (hit_identities hit)
           (hit_positives hit) (hit_gaps hit)].
Proof.
  intros Hhdr Hhit Hcheck protein_insert alignment_insert.
  pose proof (frames_check_lineage_stdout ncbi (hit_organism_name hit) w)
    as Hout.
  pose proof (frames_check_lineage_table protein ncbi (hit_organism_name hit)
                (λ _ _, eq_refl) w) as Hprotein.
  pose proof (frames_check_lineage_table fragment ncbi (hit_organism_name hit)
                (λ _ _, eq_refl) w) as Hfragment.
  pose proof (frames_check_lineage_table blast_result ncbi
                (hit_organism_name hit) (λ _ _, eq_refl) w) as Hblast.
  destruct (check_lineage ncbi (hit_organism_name hit) w) as [w1 r] eqn:Hrun.
  simpl in *. subst r.
  set (w2 := {| db := db w1; sql_log := sql_log w1;
                stdout := stdout w1 ++ [lookup_error hdr
                  (hit_organism_name hit) (hit_title hit)];
                blast_log := blast_log w1; events := events w1 |}).
  destruct (query_insert_ignore_protein (hit_accession hit) None None
              (hit_protein_name hit) w2)
    as (w3 & Hq3 & Hlog3 & Hout3 & Htax3 & Hfrag3 & Hblast3 & Hprot3).
  destruct (query_insert_blast_result hdr (hit_accession hit) (hit_score hit)
              (hit_expect hit) (hit_identities hit) (hit_positives hit)
              (hit_gaps hit) w3)
    as (w4 & Hq4 & Hlog4 & Hout4 & Htax4 & Hfrag4 & Hprot4 & Hblast4).
  assert (save_alignment ncbi fragment_data alignment w = (w4, Ok tt))
    as Hsave.
  { unfold save_alignment.
    rewrite run_bind, run_lift, Hhit, run_bind.
    unfold try_except at 1. rewrite run_bind, Hrun.
    destruct (decide (KeyError = KeyError)) as [_|?]; [|done].
    unfold py_index. rewrite Hhdr.
    rewrite run_bind, run_lift, run_bind. unfold print at 1.
    fold w2. rewrite run_ret, run_bind, Hq3, run_bind, run_lift.
    by rewrite run_bind, Hq4, run_ret. }
  exists w4. split; [done|]. split; [by rewrite run_bind, Hsave|].
  repeat split.
  - by rewrite Hout4, Hout3, <- Hout.
  - rewrite Hlog4, Hlog3. simpl. by rewrite <- app_assoc.
  - rewrite Hprot4, Hprot3. unfold accessions. simpl.
    by rewrite <- Hprotein.
  - rewrite Hblast4, Hblast3. unfold fragment_id_of. simpl.
    by rewrite Hfrag3, <- Hfragment, <- Hblast.
Qed.

Lemma key_error_recovered_witness :
  ∃ w',
    for_each [unknown_hit; coli_hit] (save_alignment sample_ncbi sample_read)
      read_1_world
    = for_each [coli_hit] (save_alignment sample_ncbi sample_read) w'
    ∧ stdout w'
      = [lookup_error "read_1" (Some "Planet nine")
           "hypothetical protein [Planet nine]"]
    ∧ protein (db w')
      = [Build_protein_row "XP_000000002" None None "hypothetical protein"]
    ∧ blast_result (db w')
      = [Build_blast_row (Some 1) "XP_000000002" 250 (1 # 1000000) 48 60 0].
Proof.
  destruct (key_error_recovered sample_ncbi sample_read "read_1" unknown_hit
    [coli_hit]
    {| hit_score := 250; hit_expect := 1 # 1000000; hit_identities := 48;
       hit_gaps := 0; hit_positives := 60; hit_accession := "XP_000000002";
       hit_protein_name := "hypothetical protein";
       hit_organism_name := Some "Planet nine";
       hit_title := "hypothetical protein [Planet nine]" |}
    read_1_world eq_refl eq_refl eq_refl)
    as (w' & _ & Hrest & Hout & _ & Hprotein & Hblast).
  exists w'. repeat split; assumption.
Defined.

(** One fragment with one hit for a known organism: the store ends with
    one fragment row, the chain of the organism's lineage, one protein row
    and one alignment row. *)
Example processing_sample_read :
  db (processing sample_ncbi sample_blast sample_read empty_world).1
  = {| taxonomy :=
         [Build_taxon_row 131567 "cellular organisms" None;
          Build_taxon_row 2 "Bacteria" (Some 131567);
          Build_taxon_row 562 "Escherichia coli" (Some 2)];
       fragment := [Build_fragment_row 1 "read_1" "ACGTACGT" "IIIIIIII"];
       protein :=
         [Build_protein_row "WP_000031783" (Some 562) None
            "elongation factor Tu"];
       blast_result :=
         [Build_blast_row (Some 1) "WP_000031783" 250 (1 # 1000000) 48 60 0] |}.
Proof. vm_compute. reflexivity. Qed.

(** ** The dispatcher *)

Lemma add_events_nil (w : world) : add_events [] w = w.
Proof. destruct w. unfold add_events. simpl. by rewrite app_nil_r. Qed.

Lemma add_events_app (evs1 evs2 : list event) (w : world) :
  add_events evs2 (add_events evs1 w) = add_events (evs1 ++ evs2) w.
Proof. unfold add_events. simpl. by rewrite app_assoc. Qed.

Lemma started_app (evs1 evs2 : list event) :
  started (evs1 ++ evs2) = started evs1 ++ started evs2.
Proof. apply omap_app. Qed.

Lemma started_launch_events (reads : list (list string)) :
  started (launch_events reads) = reads.
Proof.
  induction reads as [|read reads IH]; [done|].
  unfold launch_events. rewrite bind_cons, started_app.
  fold (launch_events reads). by rewrite IH.
Qed.

(** One round of the inner loop of [create_threads]. *)
Lemma dispatch_read (known : list string) (read : list string) (w : world) :
  read ≠ [] →
  launch_new (list_to_set known) read w
  = (add_events (launch_events (filter (is_new known) [read])) w, Ok tt).
Proof.
  destruct read as [|hdr fields]; [done|]. intros _.
  unfold launch_new. rewrite run_bind. simpl.
  destruct (decide (hdr ∈ (list_to_set known : gset string))) as [Hin|Hout].
  - rewrite filter_cons_False, filter_nil.
    + by rewrite add_events_nil.
    + intros (? & [= <-] & Hnew). by apply elem_of_list_to_set in Hin.
  - rewrite filter_cons_True, filter_nil.
    + unfold launch, emit, add_events, launch_events. rewrite run_bind.
      simpl. by rewrite <- app_assoc.
    + exists hdr. split; [done|]. intros Hin.
      by apply Hout, elem_of_list_to_set.
Qed.

Lemma dispatch_lines (known : list string) (csv_file : list (list string))
    (w : world) :
  Forall (λ line, (3 < length line)%nat) csv_file →
  for_each (fragment_reader csv_file) (λ '(read1, read2),
    for_each [read1; read2] (launch_new (list_to_set known))) w
  = (add_events (launch_events (filter (is_new known) (reads_of csv_file))) w,
     Ok tt).
Proof.
  intros Hlines. revert w.
  induction Hlines as [|line csv_file Hline _ IH]; intros w.
  - simpl. by rewrite add_events_nil.
  - unfold fragment_reader, reads_of. rewrite fmap_cons, bind_cons.
    fold (fragment_reader csv_file). fold (reads_of csv_file).
    assert (take 3 line ≠ []) as Hread1.
    { intros Hnil. apply (f_equal length) in Hnil.
      rewrite length_take in Hnil. cbn [length] in Hnil. lia. }
    assert (drop 3 line ≠ []) as Hread2.
    { intros Hnil. apply (f_equal length) in Hnil.
      rewrite length_drop in Hnil. cbn [length] in Hnil. lia. }
    rewrite for_each_cons. cbn beta iota.
    rewrite for_each_cons, dispatch_read by done.
    rewrite for_each_cons, dispatch_read by done.
    simpl. rewrite IH, !add_events_app. do 2 f_equal.
    unfold launch_events. rewrite <- !bind_app. f_equal.
    by rewrite <- !filter_app.
Qed.

(** C9: with [allow_duplicates] false and a data set whose lines hold the
    fields of two fragments, [create_threads] comes to its end, and the
    threads it starts are, in the order of the file, the reads whose header
    is not among the headers that the store held at the start: no thread is
    started for a read with a stored header, and every other read of the
    file is started as often as it stands in the file. *)
Theorem create_threads_skips_stored (csv_file : list (list string))
    (w : world) :
  Forall (λ line, (3 < length line)%nat) csv_file →
  let out := create_threads false csv_file w in
  let launched := filter (is_new (headers (db w))) (reads_of csv_file) in
  out.2 = Ok tt
  ∧ events out.1 = events w ++ launch_events launched
  ∧ started (events out.1) = started (events w) ++ launched
  ∧ (∀ read hdr, head read = Some hdr → hdr ∈ headers (db w) →
       read ∉ launched)
  ∧ (∀ read hdr, head read = Some hdr → hdr ∉ headers (db w) →
       filter (λ r, r = read) launched
       = filter (λ r, r = read) (reads_of csv_file)).
Proof.
  intros Hlines out launched.
  assert (out = (add_events (launch_events launched)
                   (logged select_header w), Ok tt)) as ->.
  { unfold out, create_threads. rewrite run_bind. unfold query at 1.
    cbn [execute header_set]. fold (logged select_header w).
    by rewrite dispatch_lines. }
  simpl. repeat split.
  - by rewrite started_app, started_launch_events.
  - intros read hdr Hhead Hstored [(hdr' & Hhead' & Hnew) _]%list_elem_of_filter.
    congruence.
  - intros read hdr Hhead Hnew. unfold launched.
    rewrite list_filter_filter. apply list_filter_iff.
    intros r. split; [tauto|]. intros ->. split; [done|]. by exists hdr.
Qed.

Lemma create_threads_skips_stored_witness :
  started (events (create_threads false sample_csv read_1_world).1)
  = [["read_2"; "TTGACCAA"; "IIIIHHHH"]; ["read_3"; "GGGTTTAA"; "HHHHIIII"]].
Proof.
  refine (proj1 (proj2 (proj2
    (create_threads_skips_stored sample_csv read_1_world _)))).
  repeat constructor.
Defined.

(** * Further properties *)

(** ** The shape of the titles that [title_parse] takes apart *)

Lemma partition_app (sep : ascii) (raw rest : string) :
  Title.contains sep raw = false →
  Title.partition sep (raw +:+ String sep rest) = Some (raw, rest).
Proof.
  induction raw as [|c raw IH]; simpl.
  - intros _. by rewrite Ascii.eqb_refl.
  - intros [Hc Hraw]%orb_false_iff. by rewrite Hc, IH.
Qed.

Lemma partition_inv (sep : ascii) (s before after : string) :
  Title.partition sep s = Some (before, after) →
  s = before +:+ String sep after ∧ Title.contains sep before = false.
Proof.
  revert before. induction s as [|c s IH]; simpl; intros before; [done|].
  destruct (Ascii.eqb_spec c sep) as [->|Hne].
  - intros [= <- <-]. done.
  - destruct (Title.partition sep s) as [[b a]|]; [|done].
    intros [= <- <-]. destruct (IH b eq_refl) as [-> Hb]. simpl.
    split; [done|]. rewrite Hb. by apply Ascii.eqb_neq in Hne as ->.
Qed.

Lemma partition_with (sep : ascii) (s : string) :
  Title.contains sep s = true →
  ∃ before after, Title.partition sep s = Some (before, after).
Proof.
  induction s as [|c s IH]; simpl; [done|].
  destruct (Ascii.eqb c sep); simpl; [by eauto|].
  intros Hs. destruct (IH Hs) as (before & after & ->). eauto.
Qed.

Lemma scan_app (organism rest : string) (pos : nat) (depth depth' : Z) :
  depth_after organism depth = Some depth' →
  Title.scan (organism +:+ rest) pos depth
  = Title.scan rest (pos + String.length organism) depth'.
Proof.
  revert pos depth. induction organism as [|c organism IH];
    intros pos depth; simpl.
  - intros [= <-]. by rewrite Nat.add_0_r.
  - destruct (_ =? -1); [done|]. intros Hdepth.
    rewrite (IH _ _ Hdepth). f_equal. lia.
Qed.

Lemma scan_None (chars : string) (pos : nat) (depth : Z) :
  Title.scan chars pos depth = None ↔ is_Some (depth_after chars depth).
Proof.
  revert pos depth. induction chars as [|c chars IH]; intros pos depth; simpl.
  - split; [eauto|done].
  - destruct (_ =? -1); [|apply IH].
    split; [done|]. by intros [? [=]].
Qed.

Lemma scan_inv (chars : string) (pos found : nat) (depth : Z) :
  0 ≤ depth →
  Title.scan chars pos depth = Some found →
  ∃ organism rest,
    chars = organism +:+ String "]" rest
    ∧ found = (pos + String.length organism)%nat
    ∧ depth_after organism depth = Some 0.
Proof.
  revert pos depth. induction chars as [|c chars IH]; intros pos depth Hdepth;
    simpl; [done|].
  destruct (Ascii.eqb_spec c "["%char) as [->|Hopen].
  - destruct (Z.eqb_spec (depth + 1) (-1)) as [?|_]; [lia|].
    intros Hscan.
    destruct (IH (S pos) (depth + 1) ltac:(lia) Hscan)
      as (o & rest & -> & -> & Ho).
    exists (String "[" o), rest. simpl.
    destruct (Z.eqb_spec (depth + 1) (-1)) as [?|_]; [lia|].
    split; [done|]. split; [lia|done].
  - destruct (Ascii.eqb_spec c "]"%char) as [->|Hclose].
    + destruct (Z.eqb_spec (depth - 1) (-1)) as [Hzero|Hmore].
      * intros [= <-]. exists "", chars. simpl.
        split; [done|]. split; [lia|f_equal; lia].
      * intros Hscan.
        destruct (IH (S pos) (depth - 1) ltac:(lia) Hscan)
          as (o & rest & -> & -> & Ho).
        exists (String "]" o), rest. simpl.
        destruct (Z.eqb_spec (depth - 1) (-1)) as [?|_]; [lia|].
        split; [done|]. split; [lia|done].
    + destruct (Z.eqb_spec depth (-1)) as [?|_]; [lia|].
      intros Hscan. destruct (IH _ _ Hdepth Hscan) as (o & rest & -> & -> & Ho).
      exists (String c o), rest. simpl.
      apply Ascii.eqb_neq in Hopen as ->. apply Ascii.eqb_neq in Hclose as ->.
      destruct (Z.eqb_spec depth (-1)) as [?|_]; [lia|].
      split; [done|]. split; [lia|done].
Qed.

Lemma substring_prefix (organism rest : string) :
  substring 0 (String.length organism) (organism +:+ rest) = organism.
Proof.
  induction organism as [|c organism IH]; simpl.
  - by destruct rest.
  - by rewrite IH.
Qed.

(** X1: a title made of a protein text without '[', a bracketed organism
    name whose own brackets are matched, and any text after the closing
    bracket parses to the trimmed protein text and that organism name. *)
Theorem title_parse_tagged (raw organism rest : string) :
  Title.contains "["%char raw = false →
  depth_after organism 0 = Some 0 →
  Title.title_parse (raw +:+ "[" +:+ organism +:+ "]" +:+ rest)
  = Ok (Title.strip raw, Some organism).
Proof.
  intros Hraw Horganism. unfold Title.title_parse, Title.split1.
  change ("[" +:+ organism +:+ "]" +:+ rest)
    with (String "[" (organism +:+ String "]" rest)).
  rewrite partition_app by done. simpl.
  rewrite (scan_app _ _ _ _ _ Horganism). simpl.
  by rewrite substring_prefix.
Qed.

Lemma title_parse_tagged_witness :
  Title.title_parse
    ("flagellin " +:+ "[" +:+ "[Clostridium] scindens" +:+ "]" +:+ " partial")
  = Ok ("flagellin", Some "[Clostridium] scindens").
Proof.
  apply (title_parse_tagged "flagellin " "[Clostridium] scindens" " partial");
    reflexivity.
Defined.

(** X2: when [title_parse] returns an organism name, the title is a text
    without '[', then '[', the organism name, ']' and some rest; the
    brackets inside the organism name are matched, and the protein name is
    the trimmed text before the first '['. *)
Theorem title_parse_organism_inv (title protein_name organism : string) :
  Title.title_parse title = Ok (protein_name, Some organism) →
  ∃ raw rest,
    title = raw +:+ "[" +:+ organism +:+ "]" +:+ rest
    ∧ Title.contains "["%char raw = false
    ∧ protein_name = Title.strip raw
    ∧ depth_after organism 0 = Some 0.
Proof.
  unfold Title.title_parse, Title.split1.
  destruct (Title.partition "[" title) as [[raw start]|] eqn:Hsplit; [|done].
  apply partition_inv in Hsplit as [-> Hraw]. simpl.
  destruct (Title.scan start 0 0) as [pos|] eqn:Hscan; [|done].
  apply scan_inv in Hscan as (o & rest & -> & -> & Ho); [|done].
  simpl. rewrite substring_prefix. intros [= <- <-].
  by exists raw, rest.
Qed.

Lemma title_parse_organism_inv_witness :
  ∃ raw rest,
    "elongation factor Tu [Escherichia coli]"
    = raw +:+ "[" +:+ "Escherichia coli" +:+ "]" +:+ rest
    ∧ Title.contains "["%char raw = false
    ∧ "elongation factor Tu" = Title.strip raw
    ∧ depth_after "Escherichia coli" 0 = Some 0.
Proof.
  apply (title_parse_organism_inv "elongation factor Tu [Escherichia coli]").
  reflexivity.
Defined.

(** X3: for a title with a '[', the organism name is [None] exactly when
    the text after the first '[' has no unmatched ']'; the protein name is
    returned all the same. *)
Theorem title_parse_unclosed_iff (raw start : string) :
  Title.contains "["%char raw = false →
  (Title.title_parse (raw +:+ "[" +:+ start) = Ok (Title.strip raw, None)
   ↔ is_Some (depth_after start 0))
  ∧ ∃ organism,
      Title.title_parse (raw +:+ "[" +:+ start) = Ok (Title.strip raw, organism).
Proof.
  intros Hraw. unfold Title.title_parse, Title.split1.
  change ("[" +:+ start) with (String "[" start).
  rewrite partition_app by done. simpl.
  rewrite <- (scan_None start 0 0).
  destruct (Title.scan start 0 0) as [pos|]; split; eauto.
  - split; [intros [=]|done].
  - done.
Qed.

Lemma title_parse_unclosed_iff_witness :
  Title.title_parse ("ABC transporter " +:+ "[" +:+ "Bacillus [sp")
  = Ok ("ABC transporter", None).
Proof.
  apply (proj1 (title_parse_unclosed_iff "ABC transporter " "Bacillus [sp"
                  eq_refl)).
  by eexists.
Defined.

Lemma lstrip_start (s : string) : starts_with_space (Title.lstrip s) = false.
Proof.
  induction s as [|c s IH]; simpl; [done|].
  destruct (Title.is_space c) eqn:Hc; [done|]. simpl. by rewrite Hc.
Qed.

Lemma rstrip_start (s : string) :
  starts_with_space s = false → starts_with_space (Title.rstrip s) = false.
Proof.
  destruct s as [|c s]; simpl; [done|]. intros Hc.
  destruct (Title.rstrip s); simpl; by rewrite Hc.
Qed.

Lemma rstrip_end (s : string) : ends_with_space (Title.rstrip s) = false.
Proof.
  induction s as [|c s IH]; simpl; [done|].
  destruct (Title.rstrip s) as [|d r]; simpl in *.
  - destruct (Title.is_space c) eqn:Hc; simpl; [done|]. by rewrite Hc.
  - done.
Qed.

Lemma lstrip_clean (s : string) :
  starts_with_space s = false → Title.lstrip s = s.
Proof. destruct s as [|c s]; simpl; [done|]. by intros ->. Qed.

Lemma rstrip_clean (s : string) :
  ends_with_space s = false → Title.rstrip s = s.
Proof.
  induction s as [|c s IH]; simpl; [done|].
  destruct s as [|d s]; simpl in *; [by intros ->|].
  intros Hend. by rewrite (IH Hend).
Qed.

(** X4: the protein name that [title_parse] returns has no white space at
    its start or at its end, so trimming it again changes nothing. *)
Theorem title_parse_protein_name_trimmed (title protein_name : string)
    (organism : option string) :
  Title.title_parse title = Ok (protein_name, organism) →
  starts_with_space protein_name = false
  ∧ ends_with_space protein_name = false
  ∧ Title.strip protein_name = protein_name.
Proof.
  unfold Title.title_parse.
  destruct (Title.unpack2 _) as [[raw start]|]; [|done].
  intros [= <- _].
  assert (starts_with_space (Title.strip raw) = false) as Hstart.
  { apply rstrip_start, lstrip_start. }
  assert (ends_with_space (Title.strip raw) = false) as Hend.
  { apply rstrip_end. }
  repeat split; try done.
  unfold Title.strip at 1. by rewrite lstrip_clean, rstrip_clean.
Qed.

Lemma title_parse_protein_name_trimmed_witness :
  starts_with_space "flagellin" = false
  ∧ ends_with_space "flagellin" = false
  ∧ Title.strip "flagellin" = "flagellin".
Proof.
  apply (title_parse_protein_name_trimmed
           "  flagellin   [Escherichia coli] " "flagellin"
           (Some "Escherichia coli")).
  reflexivity.
Defined.

(** ** [extract_results] *)

(** X5: [extract_results] fails with ValueError for a title without '['
    (whatever the pairs are), with IndexError for a title with '[' and no
    high-scoring pair, and otherwise returns the figures of the first pair
    with the accession, the parsed names and the title as it came. *)
Theorem extract_results_cases (alignment : Alignment) :
  (Title.contains "["%char (hit_def alignment) = false →
   extract_results alignment = Raise ValueError)
  ∧ (Title.contains "["%char (hit_def alignment) = true →
     hsps alignment = [] →
     extract_results alignment = Raise IndexError)
  ∧ (∀ hsp rest,
       Title.contains "["%char (hit_def alignment) = true →
       hsps alignment = hsp :: rest →
       ∃ protein_name organism_name,
         Title.title_parse (hit_def alignment)
         = Ok (protein_name, organism_name)
         ∧ extract_results alignment
           = Ok {| hit_score := hsp_score hsp;
                   hit_expect := hsp_expect hsp;
                   hit_identities := hsp_identities hsp;
                   hit_gaps := hsp_gaps hsp;
                   hit_positives := hsp_positives hsp;
                   hit_accession := alignment_accession alignment;
                   hit_protein_name := protein_name;
                   hit_organism_name := organism_name;
                   hit_title := hit_def alignment |}).
Proof.
  unfold extract_results, Title.title_parse, Title.split1. repeat split.
  - intros Hno. by rewrite partition_without.
  - intros Hwith Hnone.
    destruct (partition_with _ _ Hwith) as (raw & start & ->). simpl.
    by rewrite Hnone.
  - intros hsp rest Hwith Hsome.
    destruct (partition_with _ _ Hwith) as (raw & start & ->). simpl.
    rewrite Hsome. simpl. by eexists _, _.
Qed.

(** ** More on lineage resolution *)

Section MoreLineage.

Context (ncbi : NCBITaxa).

Lemma check_lineage_ok_inv (organism_name : option string) (w w1 : world)
    (leaf : Z) :
  check_lineage ncbi organism_name w = (w1, Ok leaf) →
  ∃ lineage,
    get_lineage ncbi organism_name = Ok lineage
    ∧ last lineage = Some leaf
    ∧ Forall (λ id, id ∈ tax_ids (db w1)) lineage
    ∧ leaf ∈ tax_ids (db w1).
Proof.
  rewrite check_lineage_run.
  destruct (get_lineage ncbi organism_name) as [lineage|e]; [|done].
  destruct (update_taxonomy _ _ _ _) as [w' [[]|e]] eqn:Hrun; [|done].
  unfold py_last. destruct (last lineage) as [x|] eqn:Hlast; [|done].
  intros [= -> ->]. exists lineage.
  assert (Forall (λ id, id ∈ tax_ids (db w1)) lineage) as Hall.
  { apply update_taxonomy_run, loop_run_ok_ids in Hrun; [|done].
    apply Forall_forall. intros id Hid. rewrite Hrun. apply elem_of_app.
    destruct (decide (id ∈ tax_ids (db w))) as [Hold|Hnew]; [by left|].
    right. apply list_elem_of_filter. by rewrite elem_of_snapshot. }
  repeat split; try done.
  rewrite Forall_forall in Hall. apply Hall.
  apply last_Some in Hlast as [l' ->].
  apply elem_of_app. right. by apply list_elem_of_singleton.
Qed.

Lemma check_lineage_grows (organism_name : option string) (w : world) (id : Z) :
  id ∈ tax_ids (db w) →
  id ∈ tax_ids (db (check_lineage ncbi organism_name w).1).
Proof.
  intros Hid. rewrite check_lineage_run.
  destruct (get_lineage ncbi organism_name) as [lineage|e]; [|done].
  destruct (update_taxonomy _ _ _ _) as [w' r] eqn:Hrun.
  apply update_taxonomy_run in Hrun.
  pose proof (loop_run_grows _ _ _ _ _ _ _ _ Hrun id Hid).
  by destruct r as [[]|].
Qed.

Lemma loop_run_nodup (current_tax : gset Z) (lineage rest : list Z)
    (pos : nat) (w w' : world) (r : result unit) :
  loop_run ncbi current_tax lineage pos rest w w' r →
  NoDup (tax_ids (db w)) → NoDup (tax_ids (db w')).
Proof.
  induction 1 as [| | | | |pos tax_id rest w parent name w' r _ _ _ Hfresh _ IH];
    intros Hnodup; auto.
  apply IH. rewrite tax_ids_taxon_added. apply NoDup_app.
  split; [done|]. split; [|apply NoDup_singleton].
  intros id Hid ->%list_elem_of_singleton. done.
Qed.

(** X6: for a name that the taxonomy source does not know,
    [check_lineage] raises KeyError after its [select]: no statement that
    writes is sent and the tables stay as they were. *)
Theorem check_lineage_unknown (organism_name : option string) (w : world) :
  get_name_translator ncbi organism_name = Ok None →
  check_lineage ncbi organism_name w
  = (logged select_tax_id w, Raise KeyError)
  ∧ db (logged select_tax_id w) = db w.
Proof.
  intros Hunknown. split; [|done].
  rewrite check_lineage_run. unfold get_lineage. by rewrite Hunknown.
Qed.

(** X7: when [check_lineage] returns a taxon, the source has a lineage for
    the organism, the returned taxon is its last element, and every taxon
    of the lineage is in the taxonomy table afterwards. *)
Theorem check_lineage_stores_lineage (organism_name : option string)
    (w w1 : world) (leaf : Z) :
  check_lineage ncbi organism_name w = (w1, Ok leaf) →
  ∃ lineage,
    get_lineage ncbi organism_name = Ok lineage
    ∧ last lineage = Some leaf
    ∧ leaf ∈ tax_ids (db w1)
    ∧ ∀ id, id ∈ lineage → id ∈ tax_ids (db w1).
Proof.
  intros (lineage & Hlineage & Hlast & Hall & Hleaf)%check_lineage_ok_inv.
  exists lineage. by rewrite Forall_forall in Hall.
Qed.

(** X8: the first element of the lineage that the source gives (the root
    of the taxonomy) is left out: when it does not come again further down
    the lineage, no pass of [check_lineage] stores it. *)
Theorem check_lineage_skips_root (organism_name : option string)
    (id root : Z) (ids lineage : list Z) (w : world) :
  get_name_translator ncbi organism_name = Ok (Some (id :: ids)) →
  get_lineage_of ncbi id = Ok (root :: lineage) →
  root ∉ lineage →
  ∃ rows,
    taxonomy (db (check_lineage ncbi organism_name w).1)
    = taxonomy (db w) ++ rows
    ∧ root ∉ (tax_id <$> rows).
Proof.
  intros Hname Hsource Hroot. rewrite check_lineage_run.
  unfold get_lineage. rewrite Hname. simpl. rewrite Hsource. simpl.
  destruct (update_taxonomy _ _ _ _) as [w' r] eqn:Hrun.
  apply update_taxonomy_run in Hrun.
  destruct (loop_run_rows _ _ _ _ _ _ _ _ Hrun)
    as (rows & Hrows & _ & Hsub & _); [done| | |].
  { intros x. by rewrite elem_of_snapshot. }
  { by intros before x [=]. }
  exists rows. split; [by destruct r as [[]|]|].
  intros Hin. apply Hroot. by eapply elem_of_sublist.
Qed.

End MoreLineage.

Lemma check_lineage_unknown_witness :
  check_lineage sample_ncbi (Some "Planet nine") bacteria_world
  = (logged select_tax_id bacteria_world, Raise KeyError)
  ∧ db (logged select_tax_id bacteria_world) = db bacteria_world.
Proof.
  apply (check_lineage_unknown sample_ncbi (Some "Planet nine") bacteria_world).
  reflexivity.
Defined.

Lemma check_lineage_stores_lineage_witness :
  ∃ lineage,
    get_lineage sample_ncbi (Some "Escherichia coli") = Ok lineage
    ∧ last lineage = Some 562
    ∧ 562 ∈ tax_ids (db (check_lineage sample_ncbi (Some "Escherichia coli")
                           bacteria_world).1)
    ∧ ∀ id, id ∈ lineage →
        id ∈ tax_ids (db (check_lineage sample_ncbi (Some "Escherichia coli")
                            bacteria_world).1).
Proof.
  apply (check_lineage_stores_lineage sample_ncbi (Some "Escherichia coli")
           bacteria_world). reflexivity.
Defined.

Lemma check_lineage_skips_root_witness :
  ∃ rows,
    taxonomy (db (check_lineage sample_ncbi (Some "Escherichia coli")
                    empty_world).1)
    = taxonomy (db empty_world) ++ rows
    ∧ 1 ∉ (tax_id <$> rows).
Proof.
  apply (check_lineage_skips_root sample_ncbi (Some "Escherichia coli") 562 1 []
           [131567; 2; 562] empty_world); [reflexivity..|].
  compute_done.
Defined.

(** ** More on saving the results of one fragment *)

Lemma execute_protein_insert (hit : blast_hit) (tax : option Z) (s : store) :
  ∃ s',
    execute (protein_insert hit tax) s = (s', Ok no_rows)
    ∧ taxonomy s' = taxonomy s
    ∧ fragment s' = fragment s
    ∧ blast_result s' = blast_result s
    ∧ protein s'
      = protein s ++
        (if decide (hit_accession hit ∈ accessions s) then []
         else [Build_protein_row (hit_accession hit) tax None
                 (hit_protein_name hit)]).
Proof.
  unfold protein_insert. simpl. case_decide; eexists; (split; [done|]); simpl.
  - by rewrite app_nil_r.
  - done.
Qed.

Lemma execute_fragment_insert (hdr sq qual : string) (s : store) :
  ∃ s',
    execute (insert_ignore_fragment [hdr; sq; qual]) s = (s', Ok no_rows)
    ∧ taxonomy s' = taxonomy s
    ∧ protein s' = protein s
    ∧ blast_result s' = blast_result s
    ∧ fragment s'
      = fragment s ++
        (if decide (hdr ∈ headers s) then []
         else [Build_fragment_row (Z.of_nat (S (length (fragment s))))
                 hdr sq qual]).
Proof.
  simpl. case_decide; eexists; (split; [done|]); simpl.
  - by rewrite app_nil_r.
  - done.
Qed.

Lemma execute_fragment_insert_arity (fragment_data : list string) (s : store) :
  length fragment_data ≠ 3%nat →
  execute (insert_ignore_fragment fragment_data) s = (s, Raise ProgrammingError).
Proof. by destruct fragment_data as [|? [|? [|? [|]]]]. Qed.


Section Saving.

Context (ncbi : NCBITaxa) (blast : Blast).

(** What the [try] block does to the tables is what [check_lineage] does
    to them; a taxon that it returns is stored. *)
Lemma resolve_taxon_inv (fragment_data : list string) (hit : blast_hit)
    (w w' : world) (r : result (option Z)) :
  resolve_taxon ncbi fragment_data hit w = (w', r) →
  db w' = db (check_lineage ncbi (hit_organism_name hit) w).1
  ∧ ∀ id, r = Ok (Some id) → id ∈ tax_ids (db w').
Proof.
  unfold resolve_taxon, try_except. rewrite run_bind.
  destruct (check_lineage ncbi (hit_organism_name hit) w)
    as [w1 [leaf|e]] eqn:Hcheck; simpl.
  - apply check_lineage_ok_inv in Hcheck
      as (lineage & Hlineage & Hlast & _ & Hleaf).
    rewrite run_bind, run_lift, Hlineage, run_bind, run_lift.
    unfold py_last. rewrite Hlast, run_ret.
    intros [= <- <-]. split; [done|]. by intros id [= <-].
  - destruct (decide (e = KeyError)) as [->|Hother].
    + rewrite run_bind, run_lift.
      destruct (py_index fragment_data 0) as [hdr|e].
      * rewrite run_bind. unfold print at 1. rewrite run_ret.
        intros [= <- <-]. by split.
      * intros [= <- <-]. by split.
    + intros [= <- <-]. by split.
Qed.

(** The ways in which the body of the loop of [blast_results_save] ends,
    and the tables it leaves. *)
Lemma save_alignment_inv (fragment_data : list string) (alignment : Alignment)
    (w w' : world) (r : result unit) :
  save_alignment ncbi fragment_data alignment w = (w', r) →
  (db w' = db w ∧ ∃ e, r = Raise e ∧ extract_results alignment = Raise e)
  ∨ ∃ hit,
      extract_results alignment = Ok hit
      ∧ let s1 := db (check_lineage ncbi (hit_organism_name hit) w).1 in
        (db w' = s1 ∧ ∃ e, r = Raise e)
        ∨ ∃ tax,
            (∀ id, tax = Some id → id ∈ tax_ids s1)
            ∧ let s2 := (execute (protein_insert hit tax) s1).1 in
              (db w' = s2 ∧ r = Raise IndexError
               ∧ fragment_data !! 0%nat = None)
              ∨ ∃ hdr,
                  fragment_data !! 0%nat = Some hdr
                  ∧ r = Ok tt
                  ∧ db w' = (execute (alignment_insert hdr hit) s2).1.
Proof.
  unfold save_alignment. rewrite run_bind, run_lift.
  destruct (extract_results alignment) as [hit|e].
  2:{ intros [= <- <-]. left. eauto. }
  rewrite run_bind.
  change (try_except _ _ _ w) with (resolve_taxon ncbi fragment_data hit w).
  destruct (resolve_taxon ncbi fragment_data hit w) as [w1 [tax|e]] eqn:Hres;
    apply resolve_taxon_inv in Hres as [Hdb Htax].
  2:{ intros [= <- <-]. right. exists hit. split; [done|]. left. eauto. }
  fold (protein_insert hit tax).
  rewrite run_bind. unfold query at 1.
  destruct (execute_protein_insert hit tax (db w1)) as (s2 & Hs2 & _).
  rewrite Hs2. rewrite run_bind, run_lift. unfold py_index.
  intros Hrest. right. exists hit. split; [done|]. right. exists tax.
  cbv zeta. rewrite <- Hdb, Hs2. split; [by intros id ->; apply Htax|].
  cbn [fst].
  destruct (fragment_data !! 0%nat) as [hdr|].
  - right. exists hdr. split; [done|]. revert Hrest.
    fold (alignment_insert hdr hit). rewrite run_bind. unfold query at 1.
    simpl. rewrite run_ret. by intros [= <- <-].
  - left. by injection Hrest as <- <-.
Qed.

End Saving.

Lemma for_each_keeps {A} (J : world → Prop) (l : list A) (body : A → M unit)
    (w : world) :
  (∀ x w, J w → J (body x w).1) →
  J w → J (for_each l body w).1.
Proof.
  intros Hbody. revert w. induction l as [|x l IH]; intros w Hw; [done|].
  rewrite for_each_cons. specialize (Hbody x w Hw).
  destruct (body x w) as [w1 [[]|e]]; [|done]. by apply IH.
Qed.

Lemma execute_alignment_insert (hdr : string) (hit : blast_hit) (s : store) :
  execute (alignment_insert hdr hit) s
  = ({| taxonomy := taxonomy s;
        fragment := fragment s;
        protein := protein s;
        blast_result := blast_result s ++
          [Build_blast_row (fragment_id_of s hdr) (hit_accession hit)
             (hit_score hit) (hit_expect hit) (hit_identities hit)
             (hit_positives hit) (hit_gaps hit)] |}, Ok no_rows).
Proof. reflexivity. Qed.

Section Invariants.

Context (ncbi : NCBITaxa) (blast : Blast).

Lemma save_alignment_fragment (fragment_data : list string)
    (alignment : Alignment) (w : world) :
  fragment (db (save_alignment ncbi fragment_data alignment w).1)
  = fragment (db w).
Proof.
  destruct (save_alignment ncbi fragment_data alignment w) as [w' r] eqn:Hrun.
  pose proof (λ name, frames_check_lineage_table fragment ncbi name
                        (λ _ _, eq_refl) w) as Hcheck.
  simpl in *.
  apply save_alignment_inv in Hrun
    as [[-> _]|(hit & _ & [[-> _]|(tax & _ & Hrest)])]; simpl; try done.
  destruct (execute_protein_insert hit tax
              (db (check_lineage ncbi (hit_organism_name hit) w).1))
    as (s2 & Hs2 & _ & Hfragment & _).
  rewrite Hs2 in Hrest. simpl in Hrest.
  destruct Hrest as [(-> & _)|(hdr & _ & _ & ->)]; simpl;
    by rewrite Hfragment.
Qed.

(** A property of the tables that each step of the loop keeps is kept by
    the body of the loop, when the fragment's header is stored. *)
Lemma save_alignment_keeps (I : store → Prop) (fragment_data : list string)
    (alignment : Alignment) (w : world) :
  (∀ name w, I (db w) → I (db (check_lineage ncbi name w).1)) →
  (∀ s hit tax, I s → (∀ id, tax = Some id → id ∈ tax_ids s) →
     I (execute (protein_insert hit tax) s).1) →
  (∀ s hdr hit, I s → hdr ∈ headers s →
     I (execute (alignment_insert hdr hit) s).1) →
  (∀ hdr, fragment_data !! 0%nat = Some hdr → hdr ∈ headers (db w)) →
  I (db w) →
  I (db (save_alignment ncbi fragment_data alignment w).1).
Proof.
  intros Hcheck Hprotein Halignment Hstored Hw.
  destruct (save_alignment ncbi fragment_data alignment w) as [w' r] eqn:Hrun.
  pose proof (frames_check_lineage_table fragment ncbi) as Hfragment.
  simpl.
  apply save_alignment_inv in Hrun
    as [[-> _]|(hit & _ & [[-> _]|(tax & Htax & Hrest)])]; simpl; try done.
  { by apply Hcheck. }
  specialize (Hfragment (hit_organism_name hit) (λ _ _, eq_refl) w).
  simpl in Hfragment.
  specialize (Hprotein _ hit tax (Hcheck (hit_organism_name hit) w Hw) Htax).
  destruct (execute_protein_insert hit tax
              (db (check_lineage ncbi (hit_organism_name hit) w).1))
    as (s2 & Hs2 & _ & Hfragment2 & _).
  rewrite Hs2 in Hrest, Hprotein. simpl in Hrest, Hprotein.
  destruct Hrest as [(-> & _)|(hdr & Hhdr & _ & ->)]; [done|].
  apply Halignment; [done|]. unfold headers.
  rewrite Hfragment2, Hfragment. by apply Hstored.
Qed.

Lemma blast_results_save_keeps (I : store → Prop) (fragment_data : list string)
    (doc : string) (w : world) :
  (∀ name w, I (db w) → I (db (check_lineage ncbi name w).1)) →
  (∀ s hdr sq qual, I s →
     I (execute (insert_ignore_fragment [hdr; sq; qual]) s).1) →
  (∀ s hit tax, I s → (∀ id, tax = Some id → id ∈ tax_ids s) →
     I (execute (protein_insert hit tax) s).1) →
  (∀ s hdr hit, I s → hdr ∈ headers s →
     I (execute (alignment_insert hdr hit) s).1) →
  I (db w) →
  I (db (blast_results_save ncbi blast fragment_data doc w).1).
Proof.
  intros Hcheck Hfragment Hprotein Halignment Hw.
  unfold blast_results_save. rewrite run_bind, run_lift.
  destruct (NCBIXML_read blast doc) as [alignments|e]; [|done].
  rewrite run_bind. unfold query at 1.
  destruct (decide (length fragment_data = 3%nat)) as [Hthree|Hother].
  2:{ by rewrite execute_fragment_insert_arity. }
  destruct fragment_data as [|hdr [|sq [|qual [|]]]]; try done.
  specialize (Hfragment (db w) hdr sq qual Hw).
  destruct (execute_fragment_insert hdr sq qual (db w))
    as (s1 & Hs1 & _ & _ & _ & Hrows).
  rewrite Hs1 in *. simpl in Hfragment.
  set (w1 := {| db := s1 |}).
  apply (for_each_keeps
           (λ w, I (db w) ∧ hdr ∈ headers (db w)) alignments _ w1).
  - intros alignment w2 [Hinv Hstored]. split.
    + apply save_alignment_keeps; try done. by intros ? [= <-].
    + unfold headers. by rewrite save_alignment_fragment.
  - split; [done|]. unfold headers. simpl. rewrite Hrows.
    case_decide as Hin; [by rewrite app_nil_r|].
    rewrite fmap_app. apply elem_of_app. right. by apply list_elem_of_singleton.
Qed.

Lemma processing_inv (fragment_data : list string) (w : world) :
  (db (processing ncbi blast fragment_data w).1 = db w
   ∧ sql_log (processing ncbi blast fragment_data w).1 = sql_log w
   ∧ ∃ e, (processing ncbi blast fragment_data w).2 = Raise e)
  ∨ ∃ hdr sq rest doc w0,
      fragment_data = hdr :: sq :: rest
      ∧ qblast blast (qblast_request sq) = Ok doc
      ∧ db w0 = db w
      ∧ sql_log w0 = sql_log w
      ∧ processing ncbi blast fragment_data w
        = blast_results_save ncbi blast fragment_data doc w0.
Proof.
  destruct fragment_data as [|hdr [|sq rest]].
  - left. unfold processing. rewrite run_bind. simpl. eauto.
  - left. unfold processing, print. repeat (rewrite run_bind; simpl). eauto.
  - unfold processing, send_qblast, print. repeat (rewrite run_bind; simpl).
    destruct (qblast blast (qblast_request sq)) as [doc|e] eqn:Hsearch; simpl.
    + right. repeat (rewrite run_bind; simpl).
      by exists hdr, sq, rest, doc,
        {| db := db w; sql_log := sql_log w;
           stdout := (stdout w ++ [sending_blast_request hdr])
                     ++ [blast_complete hdr];
           blast_log := blast_log w ++ [qblast_request sq];
           events := events w |}.
    + left. eauto.
Qed.

Lemma processing_keeps (I : store → Prop) (fragment_data : list string)
    (w : world) :
  (∀ name w, I (db w) → I (db (check_lineage ncbi name w).1)) →
  (∀ s hdr sq qual, I s →
     I (execute (insert_ignore_fragment [hdr; sq; qual]) s).1) →
  (∀ s hit tax, I s → (∀ id, tax = Some id → id ∈ tax_ids s) →
     I (execute (protein_insert hit tax) s).1) →
  (∀ s hdr hit, I s → hdr ∈ headers s →
     I (execute (alignment_insert hdr hit) s).1) →
  I (db w) →
  I (db (processing ncbi blast fragment_data w).1).
Proof.
  intros Hcheck Hfragment Hprotein Halignment Hw.
  destruct (processing_inv fragment_data w)
    as [(-> & _)|(hdr & sq & rest & doc & w0 & _ & _ & Hdb & _ & ->)];
    [done|].
  apply blast_results_save_keeps; try done. by rewrite Hdb.
Qed.

End Invariants.

(** ** What [processing] keeps true of the tables *)

Lemma parent_known_mono (known known' : list Z) (row : taxon_row) :
  (∀ id, id ∈ known → id ∈ known') →
  parent_known known row → parent_known known' row.
Proof.
  unfold parent_known. destruct (parent_tax_id row); [|done]. auto.
Qed.

Lemma parents_present_taxonomy (s s' : store) :
  taxonomy s' = taxonomy s → parents_present s → parents_present s'.
Proof. unfold parents_present, tax_ids. by intros ->. Qed.

Lemma proteins_resolved_grows (s s' : store) :
  protein s' = protein s →
  (∀ id, id ∈ tax_ids s → id ∈ tax_ids s') →
  proteins_resolved s → proteins_resolved s'.
Proof.
  unfold proteins_resolved. intros -> Hgrows. rewrite !Forall_forall.
  intros Hs row Hrow id Hid. by apply Hgrows, (Hs row).
Qed.

Lemma alignments_resolved_grows (s s' : store) :
  blast_result s' = blast_result s →
  (∀ id, id ∈ fragment_id <$> fragment s → id ∈ fragment_id <$> fragment s') →
  alignments_resolved s → alignments_resolved s'.
Proof.
  unfold alignments_resolved. intros -> Hgrows. rewrite !Forall_forall.
  intros Hs row Hrow. destruct (Hs row Hrow) as (id & Hid & Hstored). eauto.
Qed.

Lemma fragment_id_of_stored (s : store) (hdr : string) :
  hdr ∈ headers s →
  ∃ id, fragment_id_of s hdr = Some id ∧ id ∈ fragment_id <$> fragment s.
Proof.
  intros (row & Hhdr & Hrow)%list_elem_of_fmap. unfold fragment_id_of.
  destruct (filter (λ r, header r = hdr) (fragment s)) as [|first rows]
    eqn:Hfilter.
  - exfalso. eapply filter_nil_not_elem_of; [exact Hfilter| |exact Hrow]. done.
  - exists (fragment_id first). split; [done|].
    apply list_elem_of_fmap_2.
    assert (first ∈ filter (λ r, header r = hdr) (fragment s)) as Hin.
    { rewrite Hfilter. by left. }
    by apply list_elem_of_filter in Hin as [_ Hin].
Qed.

Section KeptByProcessing.

Context (ncbi : NCBITaxa) (blast : Blast).

Lemma check_lineage_taxonomy (organism_name : option string) (w : world) :
  ∃ rows,
    taxonomy (db (check_lineage ncbi organism_name w).1)
    = taxonomy (db w) ++ rows
    ∧ (NoDup (tax_ids (db w)) →
       NoDup (tax_ids (db (check_lineage ncbi organism_name w).1)))
    ∧ ∀ pre row post, rows = pre ++ row :: post →
        parent_known (tax_ids (db w) ++ (tax_id <$> pre)) row.
Proof.
  rewrite check_lineage_run.
  destruct (get_lineage ncbi organism_name) as [lineage|e]; simpl.
  2:{ exists []. rewrite app_nil_r. repeat split; try done.
      intros [|??] ???; discriminate. }
  destruct (update_taxonomy _ _ _ _) as [w' r] eqn:Hrun.
  apply update_taxonomy_run in Hrun.
  destruct (loop_run_rows _ _ _ _ _ _ _ _ Hrun)
    as (rows & Hrows & _ & _ & Hknown); [done| | |].
  { intros id. by rewrite elem_of_snapshot. }
  { by intros before x [=]. }
  pose proof (loop_run_nodup _ _ _ _ _ _ _ _ Hrun) as Hnodup.
  exists rows. by destruct r as [[]|].
Qed.

Lemma check_lineage_keeps_parents (organism_name : option string) (w : world) :
  parents_present (db w) →
  parents_present (db (check_lineage ncbi organism_name w).1).
Proof.
  destruct (check_lineage_taxonomy organism_name w) as (rows & Hrows & _ & Hknown).
  unfold parents_present, tax_ids. rewrite Hrows, fmap_app.
  intros Hold. apply Forall_app. split.
  - rewrite Forall_forall in Hold. apply Forall_forall. intros row Hrow.
    eapply parent_known_mono; [|by apply Hold].
    intros id Hid. apply elem_of_app. by left.
  - apply Forall_forall. intros row Hrow.
    apply list_elem_of_split in Hrow as (pre & post & ->).
    eapply parent_known_mono; [|by apply (Hknown pre row post)].
    intros id [Hid|Hid]%elem_of_app; apply elem_of_app; [by left|right].
    rewrite fmap_app. apply elem_of_app. by left.
Qed.

(** X9: [processing] keeps the taxonomy table closed under parents: when
    every stored taxon has a null or a stored parent before a fragment is
    processed, this is so afterwards, however the processing ends. *)
Theorem processing_keeps_parents (fragment_data : list string) (w : world) :
  parents_present (db w) →
  parents_present (db (processing ncbi blast fragment_data w).1).
Proof.
  apply processing_keeps.
  - intros name w'. apply check_lineage_keeps_parents.
  - intros s hdr sq qual Hs.
    destruct (execute_fragment_insert hdr sq qual s) as (s' & -> & Htax & _).
    by apply (parents_present_taxonomy s).
  - intros s hit tax Hs _.
    destruct (execute_protein_insert hit tax s) as (s' & -> & Htax & _).
    by apply (parents_present_taxonomy s).
  - intros s hdr hit Hs _. rewrite execute_alignment_insert.
    by apply (parents_present_taxonomy s).
Qed.

(** X10: [processing] keeps every protein's taxon stored: a protein row is
    written with a taxon only after [check_lineage] has returned, so when
    every stored protein has a null or a stored taxon before, this is so
    afterwards. *)
Theorem processing_keeps_protein_taxa (fragment_data : list string)
    (w : world) :
  proteins_resolved (db w) →
  proteins_resolved (db (processing ncbi blast fragment_data w).1).
Proof.
  apply processing_keeps.
  - intros name w'. apply proteins_resolved_grows.
    + apply (frames_check_lineage_table protein ncbi name (λ _ _, eq_refl) w').
    + intros id. apply check_lineage_grows.
  - intros s hdr sq qual.
    destruct (execute_fragment_insert hdr sq qual s)
      as (s' & -> & Htax & Hprotein & _).
    apply proteins_resolved_grows; [done|]. unfold tax_ids. simpl.
    by rewrite Htax.
  - intros s hit tax Hs Htax.
    destruct (execute_protein_insert hit tax s)
      as (s' & -> & Htaxonomy & _ & _ & Hprotein).
    unfold proteins_resolved, tax_ids in *. simpl.
    rewrite Hprotein, Htaxonomy. apply Forall_app. split; [done|].
    case_decide; [done|]. apply Forall_singleton. simpl. exact Htax.
  - intros s hdr hit Hs _. rewrite execute_alignment_insert.
    by apply (proteins_resolved_grows s).
Qed.


(** X12: [processing] keeps every alignment row tied to a fragment row: the
    fragment row is written before the alignment rows, whose fragment id is
    looked up by header, so when every stored alignment refers to a stored
    fragment before, this is so afterwards. *)
Theorem processing_keeps_alignment_fragments (fragment_data : list string)
    (w : world) :
  alignments_resolved (db w) →
  alignments_resolved (db (processing ncbi blast fragment_data w).1).
Proof.
  apply processing_keeps.
  - intros name w'. apply alignments_resolved_grows.
    + apply (frames_check_lineage_table blast_result ncbi name
               (λ _ _, eq_refl) w').
    + pose proof (frames_check_lineage_table fragment ncbi name
                    (λ _ _, eq_refl) w') as Hfragment.
      simpl in Hfragment. by rewrite Hfragment.
  - intros s hdr sq qual.
    destruct (execute_fragment_insert hdr sq qual s)
      as (s' & -> & _ & _ & Hblast & Hfragment).
    apply alignments_resolved_grows; [done|]. simpl. rewrite Hfragment.
    intros id Hid. rewrite fmap_app. apply elem_of_app. by left.
  - intros s hit tax Hs _.
    destruct (execute_protein_insert hit tax s)
      as (s' & -> & _ & Hfragment & Hblast & _).
    apply (alignments_resolved_grows s); [done| |done].
    simpl. by rewrite Hfragment.
  - intros s hdr hit Hs Hstored. rewrite execute_alignment_insert.
    unfold alignments_resolved in *. simpl.
    apply Forall_app. split; [done|]. apply Forall_singleton. simpl.
    by apply fragment_id_of_stored.
Qed.

End KeptByProcessing.

Lemma processing_keeps_parents_witness :
  parents_present
    (db (processing sample_ncbi sample_blast sample_read bacteria_world).1).
Proof.
  apply (processing_keeps_parents sample_ncbi sample_blast sample_read
           bacteria_world).
  repeat constructor.
Defined.

Lemma processing_keeps_protein_taxa_witness :
  proteins_resolved
    (db (processing sample_ncbi sample_blast sample_read bacteria_world).1).
Proof.
  apply (processing_keeps_protein_taxa sample_ncbi sample_blast sample_read
           bacteria_world).
  constructor.
Defined.


Lemma processing_keeps_alignment_fragments_witness :
  alignments_resolved
    (db (processing sample_ncbi sample_blast sample_read read_1_world).1).
Proof.
  apply (processing_keeps_alignment_fragments sample_ncbi sample_blast
           sample_read read_1_world).
  constructor.
Defined.

(** ** The rows that [blast_results_save] writes *)

Section RowsWritten.

Context (ncbi : NCBITaxa) (blast : Blast).




(** X14: a fragment that does not have exactly three fields leaves no trace
    in the store: [processing] raises and the tables are as before. *)
Theorem processing_wrong_arity (fragment_data : list string) (w : world) :
  length fragment_data ≠ 3%nat →
  db (processing ncbi blast fragment_data w).1 = db w
  ∧ ∃ e, (processing ncbi blast fragment_data w).2 = Raise e.
Proof.
  intros Harity.
  destruct (processing_inv ncbi blast fragment_data w)
    as [(Hdb & _ & He)|(hdr & sq & rest & doc & w0 & _ & _ & Hdb & _ & ->)];
    [by split|].
  assert (∃ w1 e, blast_results_save ncbi blast fragment_data doc w0
                  = (w1, Raise e) ∧ db w1 = db w0) as (w1 & e & -> & Hsame).
  { unfold blast_results_save. rewrite run_bind, run_lift.
    destruct (NCBIXML_read blast doc) as [alignments|e]; simpl; [|by eauto].
    rewrite run_bind. unfold query at 1.
    rewrite execute_fragment_insert_arity by done. by eexists _, _. }
  simpl. rewrite Hsame. eauto.
Qed.

(** X15: when the search fails, or its answer cannot be parsed,
    [processing] raises that error without having sent a statement: the
    store is as before. *)
Theorem processing_search_failure (hdr sq : string) (rest : list string)
    (e : exn) (w : world) :
  result_bind (qblast blast (qblast_request sq)) (NCBIXML_read blast)
  = Raise e →
  let out := processing ncbi blast (hdr :: sq :: rest) w in
  out.2 = Raise e ∧ sql_log out.1 = sql_log w ∧ db out.1 = db w.
Proof.
  intros Hfail out. subst out.
  destruct (processing ncbi blast (hdr :: sq :: rest) w) as [w' r] eqn:Hrun.
  revert Hrun. unfold processing, send_qblast, print.
  repeat (rewrite run_bind; simpl).
  destruct (qblast blast (qblast_request sq)) as [doc|e'] eqn:Hsearch;
    simpl in *.
  - repeat (rewrite run_bind; simpl).
    unfold blast_results_save. rewrite run_bind, run_lift, Hfail.
    by intros [= <- <-].
  - injection Hfail as ->. by intros [= <- <-].
Qed.

(** X16: [blast_results_save] adds at most one row to the fragment table:
    the row of the fragment when its header is new, and no row when the
    header is stored already; this is so however the saving of the hits
    ends. *)
Theorem blast_results_save_fragment_row (hdr sq qual doc : string)
    (alignments : list Alignment) (w : world) :
  NCBIXML_read blast doc = Ok alignments →
  ∃ id,
    fragment (db (blast_results_save ncbi blast [hdr; sq; qual] doc w).1)
    = fragment (db w) ++
      (if decide (hdr ∈ headers (db w)) then []
       else [Build_fragment_row id hdr sq qual]).
Proof.
  intros Hparse. unfold blast_results_save.
  rewrite run_bind, run_lift, Hparse, run_bind. unfold query at 1.
  destruct (execute_fragment_insert hdr sq qual (db w))
    as (s1 & -> & _ & _ & _ & Hfragment).
  eexists. rewrite <- Hfragment.
  match goal with
  | |- context [for_each alignments ?body ?w1] =>
      apply (frames_for_each (fragment ∘ db) alignments body
               (save_alignment_fragment ncbi [hdr; sq; qual]) w1)
  end.
Qed.

End RowsWritten.


Lemma processing_wrong_arity_witness :
  db (processing sample_ncbi sample_blast ["read_9"; "ACGTACGT"]
        read_1_world).1
  = db read_1_world
  ∧ ∃ e, (processing sample_ncbi sample_blast ["read_9"; "ACGTACGT"]
            read_1_world).2 = Raise e.
Proof.
  apply (processing_wrong_arity sample_ncbi sample_blast
           ["read_9"; "ACGTACGT"] read_1_world).
  discriminate.
Defined.

Lemma processing_search_failure_witness :
  let out := processing sample_ncbi unreachable_blast sample_read
               read_1_world in
  out.2 = Raise (OtherError "URLError")
  ∧ sql_log out.1 = sql_log read_1_world
  ∧ db out.1 = db read_1_world.
Proof.
  apply (processing_search_failure sample_ncbi unreachable_blast "read_1"
           "ACGTACGT" ["IIIIIIII"] (OtherError "URLError") read_1_world).
  reflexivity.
Defined.

Lemma blast_results_save_fragment_row_witness :
  ∃ id,
    fragment (db (blast_results_save sample_ncbi sample_blast
                    ["read_1"; "ACGTACGT"; "IIIIIIII"] "coli"
                    read_1_world).1)
    = fragment (db read_1_world) ++
      (if decide ("read_1" ∈ headers (db read_1_world)) then []
       else [Build_fragment_row id "read_1" "ACGTACGT" "IIIIIIII"]).
Proof.
  apply (blast_results_save_fragment_row sample_ncbi sample_blast "read_1"
           "ACGTACGT" "IIIIIIII" "coli" [coli_hit] read_1_world).
  reflexivity.
Defined.

(** ** More on the dispatcher *)

(** X17: [fragment_reader] loses no field and adds none: the two reads of a
    line, put end to end, are the line; the first read holds the first
    three fields (or all of a shorter line) and the second read the
    others. *)
Theorem fragment_reader_round_trip (csv_file : list (list string)) :
  (λ '(read1, read2), read1 ++ read2) <$> fragment_reader csv_file = csv_file
  ∧ Forall2 (λ line '(read1, read2),
               length read1 = (3 `min` length line)%nat
               ∧ length read2 = (length line - 3)%nat)
      csv_file (fragment_reader csv_file).
Proof.
  unfold fragment_reader. split.
  - induction csv_file as [|line csv_file IH]; [done|].
    rewrite !fmap_cons, IH. by rewrite take_drop.
  - induction csv_file as [|line csv_file IH]; [constructor|].
    rewrite fmap_cons. constructor; [|done].
    by rewrite length_take, length_drop.
Qed.

Lemma for_each_app {A} (l1 l2 : list A) (body : A → M unit) (w : world) :
  for_each (l1 ++ l2) body w
  = match for_each l1 body w with
    | (w', Ok _) => for_each l2 body w'
    | (w', Raise e) => (w', Raise e)
    end.
Proof.
  revert w. induction l1 as [|x l1 IH]; intros w; [done|].
  rewrite <- app_comm_cons, !for_each_cons.
  by destruct (body x w) as [w1 [[]|e]].
Qed.

Lemma launch_events_app (reads1 reads2 : list (list string)) :
  launch_events (reads1 ++ reads2)
  = launch_events reads1 ++ launch_events reads2.
Proof. apply bind_app. Qed.

Lemma launch_run (read : list string) (w : world) :
  launch read w = (add_events (launch_events [read]) w, Ok tt).
Proof.
  unfold launch, emit, add_events, launch_events. rewrite run_bind. simpl.
  by rewrite <- app_assoc.
Qed.

Lemma launch_all (reads : list (list string)) (w : world) :
  for_each reads launch w = (add_events (launch_events reads) w, Ok tt).
Proof.
  revert w. induction reads as [|read reads IH]; intros w.
  - simpl. by rewrite add_events_nil.
  - rewrite for_each_cons, launch_run, IH, add_events_app.
    by rewrite <- launch_events_app.
Qed.

Lemma dispatch_all (csv_file : list (list string)) (w : world) :
  create_threads true csv_file w
  = (add_events (launch_events (reads_of csv_file)) w, Ok tt).
Proof.
  unfold create_threads. revert w.
  induction csv_file as [|line csv_file IH]; intros w.
  - simpl. by rewrite add_events_nil.
  - unfold fragment_reader, reads_of. rewrite fmap_cons, bind_cons.
    fold (fragment_reader csv_file). fold (reads_of csv_file).
    rewrite for_each_cons. cbn beta iota.
    rewrite launch_all, IH, add_events_app.
    by rewrite <- launch_events_app.
Qed.

(** X18: with [allow_duplicates] true, [create_threads] starts a thread for
    every read of the file, in the order of the file and each followed by
    its pause, sends nothing to the store and never fails, whatever the
    lines hold (a read without any field is started as well). *)
Theorem create_threads_all (csv_file : list (list string)) (w : world) :
  create_threads true csv_file w
  = (add_events (launch_events (reads_of csv_file)) w, Ok tt)
  ∧ started (events (create_threads true csv_file w).1)
    = started (events w) ++ reads_of csv_file
  ∧ sql_log (create_threads true csv_file w).1 = sql_log w.
Proof.
  rewrite dispatch_all. simpl. repeat split.
  by rewrite started_app, started_launch_events.
Qed.

Lemma launch_new_any (known : list string) (read : list string) (w : world) :
  ∃ launched,
    (launch_new (list_to_set known) read w).1
    = add_events (launch_events launched) w
    ∧ launched `sublist_of` [read]
    ∧ Forall (is_new known) launched.
Proof.
  destruct (decide (read = [])) as [->|Hread].
  - exists []. rewrite add_events_nil. repeat split; [apply sublist_nil_l|done].
  - exists (filter (is_new known) [read]). rewrite dispatch_read by done.
    repeat split; [apply sublist_filter|].
    apply Forall_forall. by intros x [Hx _]%list_elem_of_filter.
Qed.

Lemma dispatch_reads_any (known : list string) (reads : list (list string))
    (w : world) :
  ∃ launched,
    (for_each reads (launch_new (list_to_set known)) w).1
    = add_events (launch_events launched) w
    ∧ launched `sublist_of` reads
    ∧ Forall (is_new known) launched.
Proof.
  revert w. induction reads as [|read reads IH]; intros w.
  - exists []. simpl. rewrite add_events_nil.
    repeat split; [apply sublist_nil_l|done].
  - rewrite for_each_cons.
    destruct (launch_new_any known read w) as (first & Hfirst & Hsub & Hnew).
    destruct (launch_new (list_to_set known) read w) as [w1 [[]|e]];
      simpl in Hfirst; subst w1.
    + destruct (IH (add_events (launch_events first) w))
        as (others & -> & Hsub' & Hnew').
      exists (first ++ others). rewrite add_events_app, launch_events_app.
      repeat split; [|by apply Forall_app].
      by apply (sublist_app first [read] others reads).
    + exists first. repeat split; [|done].
      by apply (sublist_inserts_r reads first [read]).
Qed.

Lemma dispatch_any (known : list string) (csv_file : list (list string))
    (w : world) :
  ∃ launched,
    (for_each (fragment_reader csv_file) (λ '(read1, read2),
       for_each [read1; read2] (launch_new (list_to_set known))) w).1
    = add_events (launch_events launched) w
    ∧ launched `sublist_of` reads_of csv_file
    ∧ Forall (is_new known) launched.
Proof.
  revert w. induction csv_file as [|line csv_file IH]; intros w.
  - exists []. simpl. rewrite add_events_nil.
    repeat split; [apply sublist_nil_l|done].
  - unfold fragment_reader, reads_of. rewrite fmap_cons, bind_cons.
    fold (fragment_reader csv_file). fold (reads_of csv_file).
    rewrite for_each_cons. cbn beta iota.
    destruct (dispatch_reads_any known [take 3 line; drop 3 line] w)
      as (first & Hfirst & Hsub & Hnew).
    destruct (for_each [take 3 line; drop 3 line] _ w) as [w1 [[]|e]];
      simpl in Hfirst; subst w1.
    + destruct (IH (add_events (launch_events first) w))
        as (others & -> & Hsub' & Hnew').
      exists (first ++ others). rewrite add_events_app, launch_events_app.
      repeat split; [|by apply Forall_app].
      by apply sublist_app.
    + exists first. repeat split; [|done]. by apply sublist_inserts_r.
Qed.

Lemma create_threads_false (csv_file : list (list string)) (w : world) :
  create_threads false csv_file w
  = for_each (fragment_reader csv_file) (λ '(read1, read2),
      for_each [read1; read2] (launch_new (list_to_set (headers (db w)))))
      (logged select_header w).
Proof. reflexivity. Qed.

(** X19: in both modes and on any file, complete or not, what
    [create_threads] does is a run of thread starts, each followed by a
    pause of 0.6: the reads started are reads of the file, in its order,
    the tables are left as they were, and without [allow_duplicates] no
    read with a stored header is among them. *)
Theorem create_threads_launches (allow_duplicates : bool)
    (csv_file : list (list string)) (w : world) :
  let out := create_threads allow_duplicates csv_file w in
  ∃ launched,
    events out.1 = events w ++ launch_events launched
    ∧ launched `sublist_of` reads_of csv_file
    ∧ db out.1 = db w
    ∧ (allow_duplicates = false →
       Forall (is_new (headers (db w))) launched).
Proof.
  destruct allow_duplicates; cbv zeta.
  - rewrite dispatch_all. exists (reads_of csv_file). simpl.
    split; [done|]. split; [done|]. split; [done|]. intros [=].
  - rewrite create_threads_false.
    destruct (dispatch_any (headers (db w)) csv_file (logged select_header w))
      as (launched & -> & Hsub & Hnew).
    by exists launched.
Qed.

(** X20: without [allow_duplicates], a line of three fields or fewer ends
    the dispatch with IndexError, its second read having no header: the new
    reads of the lines before it and the line's own first read have been
    started, the reads of the lines after it are not. *)
Theorem create_threads_short_line (good rest : list (list string))
    (line : list string) (w : world) :
  Forall (λ line, (3 < length line)%nat) good →
  (length line ≤ 3)%nat →
  let out := create_threads false (good ++ line :: rest) w in
  out.2 = Raise IndexError
  ∧ started (events out.1)
    = started (events w)
      ++ filter (is_new (headers (db w))) (reads_of good ++ [line]).
Proof.
  intros Hgood Hshort out. subst out.
  destruct (create_threads false (good ++ line :: rest) w) as [w' r] eqn:Hrun.
  revert Hrun. rewrite create_threads_false.
  unfold fragment_reader. rewrite fmap_app, fmap_cons.
  fold (fragment_reader good). fold (fragment_reader rest).
  rewrite for_each_app, dispatch_lines by done.
  rewrite for_each_cons. cbn beta iota.
  rewrite take_ge, drop_ge by done. rewrite for_each_cons.
  rewrite filter_app.
  destruct (decide (line = [])) as [->|Hline].
  - intros [= <- <-]. split; [done|]. simpl.
    rewrite started_app, started_launch_events.
    by rewrite filter_cons_False, filter_nil, app_nil_r
      by (by intros (? & [=] & _)).
  - rewrite dispatch_read by done. rewrite for_each_cons.
    intros [= <- <-]. split; [done|]. simpl.
    by rewrite !started_app, !started_launch_events, app_assoc.
Qed.

Lemma create_threads_short_line_witness :
  let out := create_threads false
               ([["read_1"; "ACGTACGT"; "IIIIIIII";
                  "read_2"; "TTGACCAA"; "IIIIHHHH"]]
                ++ ["read_3"; "GGGTTTAA"; "HHHHIIII"]
                :: [["read_4"; "CCCCAAAA"; "HHHHHHHH";
                     "read_5"; "GGGGTTTT"; "IIIIIIII"]])
               read_1_world in
  out.2 = Raise IndexError
  ∧ started (events out.1)
    = [["read_2"; "TTGACCAA"; "IIIIHHHH"]; ["read_3"; "GGGTTTAA"; "HHHHIIII"]].
Proof.
  apply (create_threads_short_line
           [["read_1"; "ACGTACGT"; "IIIIIIII";
             "read_2"; "TTGACCAA"; "IIIIHHHH"]]
           [["read_4"; "CCCCAAAA"; "HHHHHHHH";
             "read_5"; "GGGGTTTT"; "IIIIIIII"]]
           ["read_3"; "GGGTTTAA"; "HHHHIIII"] read_1_world).
  - repeat constructor.
  - simpl. lia.
Defined.

(** X21: on a store without fragments and a file whose lines hold the
    fields of two fragments, [create_threads] starts the same threads and
    takes the same pauses with and without [allow_duplicates]. *)
Theorem create_threads_empty_store (csv_file : list (list string))
    (w : world) :
  fragment (db w) = [] →
  Forall (λ line, (3 < length line)%nat) csv_file →
  events (create_threads false csv_file w).1
  = events (create_threads true csv_file w).1
  ∧ (create_threads false csv_file w).2 = Ok tt.
Proof.
  intros Hempty Hlines. rewrite dispatch_all, create_threads_false.
  rewrite dispatch_lines by done. simpl. split; [|done]. do 2 f_equal.
  unfold headers. rewrite Hempty. simpl.
  clear Hempty. induction Hlines as [|line csv_file Hline _ IH]; [done|].
  unfold reads_of. rewrite bind_cons. fold (reads_of csv_file).
  rewrite filter_app, IH. f_equal.
  destruct line as [|f1 [|f2 [|f3 [|f4 line]]]]; simpl in Hline; try lia.
  rewrite filter_cons_True, filter_cons_True, filter_nil; [done|..].
  - exists f4. split; [done|]. apply not_elem_of_nil.
  - exists f1. split; [done|]. apply not_elem_of_nil.
Qed.

Lemma create_threads_empty_store_witness :
  events (create_threads false sample_csv empty_world).1
  = events (create_threads true sample_csv empty_world).1
  ∧ (create_threads false sample_csv empty_world).2 = Ok tt.
Proof.
  apply (create_threads_empty_store sample_csv empty_world).
  - reflexivity.
  - repeat constructor.
Defined.

(** ** More on [update_taxonomy] and [check_lineage] *)

Section MoreUpdates.

Context (ncbi : NCBITaxa).

(** X22: when every taxon of the lineage is in the snapshot (an empty
    lineage among them), [update_taxonomy] returns without sending a
    statement; the source is not asked for any name. *)
Theorem update_taxonomy_nothing_missing (current_tax : gset Z)
    (lineage : list Z) (w : world) :
  Forall (λ id, id ∈ current_tax) lineage →
  update_taxonomy ncbi current_tax lineage w = (w, Ok tt).
Proof.
  intros Hall.
  destruct (update_taxonomy ncbi current_tax lineage w) as [w' r] eqn:Hrun.
  by apply update_taxonomy_run, loop_run_all_present in Hrun as [-> ->].
Qed.

(** X23: the scan of [check_lineage] over the reversed lineage decides
    nothing: with it or without it, what happens is what a call of
    [update_taxonomy] on the snapshot and the lineage does. *)
Theorem check_lineage_scan_redundant (tax_set : gset Z) (lineage : list Z)
    (w : world) :
  check_taxa ncbi tax_set lineage (reverse lineage) w
  = update_taxonomy ncbi tax_set lineage w.
Proof. apply check_taxa_reverse. Qed.

Lemma loop_run_names (current_tax : gset Z) (lineage rest : list Z)
    (pos : nat) (w w' : world) (r : result unit) :
  loop_run ncbi current_tax lineage pos rest w w' r →
  ∃ rows,
    taxonomy (db w') = taxonomy (db w) ++ rows
    ∧ Forall (λ row, taxon_name ncbi (tax_id row) = Ok (tax_name row)) rows.
Proof.
  induction 1 as [| ? ? ? ? ? ? ? ? IH | | | |
                  pos tax_id rest w parent name w' r _ _ Hname _ _ IH];
    try (exists []; by rewrite app_nil_r); [done|].
  destruct IH as (rows & Hrows & Hnames).
  exists (Build_taxon_row tax_id name parent :: rows). split.
  - rewrite Hrows. simpl. by rewrite <- app_assoc.
  - by constructor.
Qed.

(** X24: the name stored with a taxon is the name that the source gives
    for its id, for every row that a pass of [check_lineage] adds. *)
Theorem check_lineage_stores_names (organism_name : option string)
    (w : world) :
  ∃ rows,
    taxonomy (db (check_lineage ncbi organism_name w).1)
    = taxonomy (db w) ++ rows
    ∧ Forall (λ row, taxon_name ncbi (tax_id row) = Ok (tax_name row)) rows.
Proof.
  rewrite check_lineage_run.
  destruct (get_lineage ncbi organism_name) as [lineage|e]; simpl.
  2:{ exists []. by rewrite app_nil_r. }
  destruct (update_taxonomy _ _ _ _) as [w' r] eqn:Hrun.
  apply update_taxonomy_run, loop_run_names in Hrun as (rows & Hrows & Hnames).
  exists rows. by destruct r as [[]|].
Qed.

(** X25: for a hit whose organism [check_lineage] resolves, the body of
    the loop of [blast_results_save] prints nothing, writes the protein row
    with the leaf taxon (unless the accession is stored already) and the
    alignment row, and the leaf taxon is in the taxonomy table. *)
Theorem save_alignment_resolved (fragment_data : list string) (hdr : string)
    (alignment : Alignment) (hit : blast_hit) (leaf : Z) (w : world) :
  fragment_data !! 0%nat = Some hdr →
  extract_results alignment = Ok hit →
  (check_lineage ncbi (hit_organism_name hit) w).2 = Ok leaf →
  ∃ w',
    save_alignment ncbi fragment_data alignment w = (w', Ok tt)
    ∧ stdout w' = stdout w
    ∧ leaf ∈ tax_ids (db w')
    ∧ protein (db w')
      = protein (db w) ++
        (if decide (hit_accession hit ∈ accessions (db w)) then []
         else [Build_protein_row (hit_accession hit) (Some leaf) None
                 (hit_protein_name hit)])
    ∧ blast_result (db w')
      = blast_result (db w) ++
        [Build_blast_row (fragment_id_of (db w) hdr) (hit_accession hit)
           (hit_score hit) (hit_expect hit) (hit_identities hit)
           (hit_positives hit) (hit_gaps hit)].
Proof.
  intros Hhdr Hhit Hcheck.
  pose proof (frames_check_lineage_stdout ncbi (hit_organism_name hit) w)
    as Hout.
  pose proof (frames_check_lineage_table protein ncbi (hit_organism_name hit)
                (λ _ _, eq_refl) w) as Hprotein.
  pose proof (frames_check_lineage_table fragment ncbi (hit_organism_name hit)
                (λ _ _, eq_refl) w) as Hfragment.
  pose proof (frames_check_lineage_table blast_result ncbi
                (hit_organism_name hit) (λ _ _, eq_refl) w) as Hblast.
  destruct (check_lineage ncbi (hit_organism_name hit) w) as [w1 r] eqn:Hrun.
  simpl in *. subst r.
  destruct (check_lineage_ok_inv _ _ _ _ _ Hrun)
    as (lineage & Hlineage & Hlast & _ & Hleaf).
  destruct (query_insert_ignore_protein (hit_accession hit) (Some leaf) None
              (hit_protein_name hit) w1)
    as (w3 & Hq3 & _ & Hout3 & Htax3 & Hfrag3 & Hblast3 & Hprot3).
  destruct (query_insert_blast_result hdr (hit_accession hit) (hit_score hit)
              (hit_expect hit) (hit_identities hit) (hit_positives hit)
              (hit_gaps hit) w3)
    as (w4 & Hq4 & _ & Hout4 & Htax4 & Hfrag4 & Hprot4 & Hblast4).
  exists w4. split.
  { unfold save_alignment.
    rewrite run_bind, run_lift, Hhit, run_bind.
    unfold try_except at 1. rewrite run_bind, Hrun.
    rewrite run_bind, run_lift, Hlineage, run_bind, run_lift.
    unfold py_last. rewrite Hlast, run_ret.
    rewrite run_bind, Hq3, run_bind, run_lift.
    unfold py_index. rewrite Hhdr.
    by rewrite run_bind, Hq4, run_ret. }
  repeat split.
  - by rewrite Hout4, Hout3.
  - unfold tax_ids in *. by rewrite Htax4, Htax3.
  - rewrite Hprot4, Hprot3. unfold accessions. by rewrite Hprotein.
  - rewrite Hblast4, Hblast3. unfold fragment_id_of.
    by rewrite Hfrag3, Hfragment, Hblast.
Qed.

End MoreUpdates.

Lemma update_taxonomy_nothing_missing_witness :
  update_taxonomy sample_ncbi {[ 131567; 2; 562 ]} [131567; 2; 562]
    bacteria_world
  = (bacteria_world, Ok tt).
Proof.
  apply (update_taxonomy_nothing_missing sample_ncbi {[ 131567; 2; 562 ]}
           [131567; 2; 562] bacteria_world).
  repeat constructor; set_solver.
Defined.

Lemma save_alignment_resolved_witness :
  ∃ w',
    save_alignment sample_ncbi sample_read coli_hit read_1_world
    = (w', Ok tt)
    ∧ stdout w' = stdout read_1_world
    ∧ 562 ∈ tax_ids (db w')
    ∧ protein (db w')
      = [Build_protein_row "WP_000031783" (Some 562) None
           "elongation factor Tu"]
    ∧ blast_result (db w')
      = [Build_blast_row (Some 1) "WP_000031783" 250 (1 # 1000000) 48 60 0].
Proof.
  apply (save_alignment_resolved sample_ncbi sample_read "read_1" coli_hit
    {| hit_score := 250; hit_expect := 1 # 1000000; hit_identities := 48;
       hit_gaps := 0; hit_positives := 60; hit_accession := "WP_000031783";
       hit_protein_name := "elongation factor Tu";
       hit_organism_name := Some "Escherichia coli";
       hit_title := "elongation factor Tu [Escherichia coli]" |}
    562 read_1_world); reflexivity.
Defined.
